(** * Molecule-to-graph projection of the Neptune / RDKit notebook

    A shallow embedding of the code cells of
    [01-Modeling-Molecular-Structures-as-Graph-Data-Gremlin.ipynb]:
    the graph data model cell ([nodes_dict], [edges_dict]), the projection
    cell (the two [for] loops over [mol.GetAtoms()] and [mol.GetBonds()]),
    the data-frame cell and the clean-up cell.

    The notebook is a sequence of statements run at top level against the
    kernel's global namespace, so the embedding is a state-and-exception
    monad over that namespace (a finite map from variable names to values)
    together with the log of requests sent to the remote graph store. *)

From stdpp Require Import base option list strings gmap fin_maps pretty.

Local Open Scope stdpp_scope.

(** ** The chemistry toolkit's molecule objects

    The notebook only reads molecules through the accessors below; the
    records keep the accessor names of the toolkit. *)

(** The toolkit's bond-type enumeration; [str] of a member is its name. *)
Inductive BondType : Type :=
| UNSPECIFIED | SINGLE | DOUBLE | TRIPLE | QUADRUPLE | QUINTUPLE | HEXTUPLE
| ONEANDAHALF | TWOANDAHALF | THREEANDAHALF | FOURANDAHALF | FIVEANDAHALF
| AROMATIC | IONIC | HYDROGEN | THREECENTER | DATIVEONE | DATIVE | DATIVEL
| DATIVER | OTHER | ZERO.

Definition str_BondType (t : BondType) : string :=
  match t with
  | UNSPECIFIED => "UNSPECIFIED" | SINGLE => "SINGLE" | DOUBLE => "DOUBLE"
  | TRIPLE => "TRIPLE" | QUADRUPLE => "QUADRUPLE" | QUINTUPLE => "QUINTUPLE"
  | HEXTUPLE => "HEXTUPLE" | ONEANDAHALF => "ONEANDAHALF"
  | TWOANDAHALF => "TWOANDAHALF" | THREEANDAHALF => "THREEANDAHALF"
  | FOURANDAHALF => "FOURANDAHALF" | FIVEANDAHALF => "FIVEANDAHALF"
  | AROMATIC => "AROMATIC" | IONIC => "IONIC" | HYDROGEN => "HYDROGEN"
  | THREECENTER => "THREECENTER" | DATIVEONE => "DATIVEONE"
  | DATIVE => "DATIVE" | DATIVEL => "DATIVEL" | DATIVER => "DATIVER"
  | OTHER => "OTHER" | ZERO => "ZERO"
  end.

Record Atom : Type := mkAtom {
  GetIdx : nat;
  GetSymbol : string;
  GetAtomicNum : nat;
  GetIsAromatic : bool
}.

Record Bond : Type := mkBond {
  GetBeginAtomIdx : nat;
  GetEndAtomIdx : nat;
  GetBondType : BondType
}.

Record Mol : Type := mkMol {
  GetAtoms : list Atom;
  GetBonds : list Bond
}.

(** ** Python values held by the notebook *)

(** What a list cell of the two dictionaries (and of a data frame) holds. *)
Inductive scalar : Type :=
| SStr (s : string)
| SInt (n : nat)
| SBool (b : bool).

(** A dictionary of lists, keyed by field name. *)
Abbreviation table := (gmap string (list scalar)).

Inductive value : Type :=
| VNone
| VScalar (c : scalar)
| VAtom (a : Atom)
| VBond (b : Bond)
| VMol (m : Mol)
| VDict (d : table)
| VFrame (f : table)
| VClient (host : string) (port : N).

Abbreviation VStr s := (VScalar (SStr s)).

(** Python's [str] on a non-negative integer: its decimal rendering. *)
Definition str (n : nat) : string := pretty n.

(** ** The interpreter state and its monad *)

Inductive exc : Type :=
| NameError (x : string)
| KeyError (k : string)
| AttributeError
| TypeError
| ValueError.

Record State : Type := mkState {
  vars : gmap string value;   (* the kernel's global namespace *)
  requests : list string      (* queries sent to the remote store, oldest first *)
}.

Definition Py (A : Type) : Type := State → exc + (A * State).

#[global] Instance Py_ret : MRet Py := λ A x st, inr (x, st).

#[global] Instance Py_bind : MBind Py := λ A B f m st,
  match m st with
  | inl e => inl e
  | inr (x, st') => f x st'
  end.

#[global] Instance Py_throw : MThrow exc Py := λ A e st, inl e.

(** Reading a global name; an unbound name raises [NameError]. *)
Definition name (x : string) : Py value := λ st,
  match vars st !! x with
  | Some v => inr (v, st)
  | None => inl (NameError x)
  end.

(** [x = v] at top level. *)
Definition assign (x : string) (v : value) : Py unit := λ st,
  inr (tt, {| vars := <[x := v]> (vars st); requests := requests st |}).

Definition as_str (v : value) : Py string :=
  match v with VScalar (SStr s) => mret s | _ => mthrow TypeError end.

Definition as_atom (v : value) : Py Atom :=
  match v with VAtom a => mret a | _ => mthrow AttributeError end.

Definition as_bond (v : value) : Py Bond :=
  match v with VBond b => mret b | _ => mthrow AttributeError end.

Definition as_mol (v : value) : Py Mol :=
  match v with VMol m => mret m | _ => mthrow AttributeError end.

Definition as_dict (v : value) : Py table :=
  match v with VDict d => mret d | _ => mthrow TypeError end.

Definition as_frame (v : value) : Py table :=
  match v with VFrame f => mret f | _ => mthrow TypeError end.

(** [d[k]]: a missing key raises [KeyError]. *)
Definition subscript (d : table) (k : string) : Py (list scalar) :=
  match d !! k with
  | Some col => mret col
  | None => mthrow (KeyError k)
  end.

(** [d[k].append(e)] for a global dictionary [d].  The list is mutated in
    place; no other name of the notebook refers to the dictionary or to its
    lists, so the mutation is the update of the value bound to [d]. *)
Definition append_to (d k : string) (e : Py scalar) : Py unit :=
  tbl ← name d ≫= as_dict;
  col ← subscript tbl k;
  x ← e;
  assign d (VDict (<[k := col ++ [x]]> tbl)).

(** [for x in xs: body]: the loop target is a global name, rebound at the
    start of every iteration and left bound when the loop ends. *)
Fixpoint for_in (x : string) (xs : list value) (body : Py unit) : Py unit :=
  match xs with
  | [] => mret tt
  | v :: xs' => assign x v;; body;; for_in x xs' body
  end.

(** ** The code cells *)

(** Lines 165-176: the graph data model. *)
Definition nodes_dict_init : table :=
  <["~id" := []]> (<["~label" := []]> (<["idx" := []]>
    (<["atomicNumber" := []]> (<["isAromatic" := []]> ∅)))).

Definition edges_dict_init : table :=
  <["~id" := []]> (<["~label" := []]> (<["~from" := []]> (<["~to" := []]> ∅))).

Definition cell_data_model : Py unit :=
  assign "nodes_dict" (VDict nodes_dict_init);;
  assign "edges_dict" (VDict edges_dict_init).

(** Line 210. *)
Definition caffeine : string := "CN1C=NC2=C1C(=O)N(C(=O)N2C)C".

Definition cell_smiles : Py unit :=
  assign "caffeine_smiles" (VStr caffeine).

(** Line 228: [mol = Chem.MolFromSmiles(caffeine_smiles)].  The parser
    belongs to the toolkit; it yields [None] on a descriptor it rejects. *)
Section Parser.
Variable MolFromSmiles : string → option Mol.

Definition cell_parse : Py unit :=
  s ← name "caffeine_smiles" ≫= as_str;
  assign "mol" (match MolFromSmiles s with Some m => VMol m | None => VNone end).

End Parser.

(** Lines 272-277, the body of the atom loop. *)
Definition atom_body : Py unit :=
  append_to "nodes_dict" "~id"
    (s ← name "caffeine_smiles" ≫= as_str;
     a ← name "atom" ≫= as_atom;
     mret (SStr (("Node-" +:+ s) +:+ str (GetIdx a))));;
  append_to "nodes_dict" "~label"
    (a ← name "atom" ≫= as_atom; mret (SStr (GetSymbol a)));;
  append_to "nodes_dict" "idx"
    (a ← name "atom" ≫= as_atom; mret (SInt (GetIdx a)));;
  append_to "nodes_dict" "atomicNumber"
    (a ← name "atom" ≫= as_atom; mret (SInt (GetAtomicNum a)));;
  append_to "nodes_dict" "isAromatic"
    (a ← name "atom" ≫= as_atom; mret (SBool (GetIsAromatic a))).

(** Lines 279-283, the body of the bond loop. *)
Definition bond_body : Py unit :=
  append_to "edges_dict" "~id"
    (s ← name "caffeine_smiles" ≫= as_str;
     b ← name "bond" ≫= as_bond;
     b' ← name "bond" ≫= as_bond;
     mret (SStr ((("edge-" +:+ s) +:+ str (GetBeginAtomIdx b))
                 +:+ str (GetEndAtomIdx b'))));;
  append_to "edges_dict" "~label"
    (b ← name "bond" ≫= as_bond; mret (SStr (str_BondType (GetBondType b))));;
  append_to "edges_dict" "~from"
    (s ← name "caffeine_smiles" ≫= as_str;
     b ← name "bond" ≫= as_bond;
     mret (SStr (("Node-" +:+ s) +:+ str (GetBeginAtomIdx b))));;
  append_to "edges_dict" "~to"
    (s ← name "caffeine_smiles" ≫= as_str;
     b ← name "bond" ≫= as_bond;
     mret (SStr (("Node-" +:+ s) +:+ str (GetEndAtomIdx b)))).

Definition atom_loop (atoms : list Atom) : Py unit :=
  for_in "atom" (VAtom <$> atoms) atom_body.

Definition bond_loop (bonds : list Bond) : Py unit :=
  for_in "bond" (VBond <$> bonds) bond_body.

(** Lines 272-283: the projection cell. *)
Definition cell_projection : Py unit :=
  (m ← name "mol" ≫= as_mol; atom_loop (GetAtoms m));;
  (m ← name "mol" ≫= as_mol; bond_loop (GetBonds m)).

(** A dictionary of lists is a well-formed table when all its lists have
    the same length. *)
Definition rectangular (d : table) : Prop :=
  map_Forall (λ _ c1, map_Forall (λ _ c2, length c1 = length c2) d) d.

#[global] Instance rectangular_dec d : Decision (rectangular d).
Proof. unfold rectangular. apply _. Defined.

(** [pd.DataFrame.from_dict(d)]: copies the lists into a frame; lists of
    unequal length raise [ValueError]. *)
Definition from_dict (d : table) : Py value :=
  if decide (rectangular d) then mret (VFrame d) else mthrow ValueError.

(** Lines 349-350. *)
Definition cell_frames : Py unit :=
  (d ← name "nodes_dict" ≫= as_dict; f ← from_dict d; assign "nodes_df" f);;
  (d ← name "edges_dict" ≫= as_dict; f ← from_dict d; assign "edges_df" f).

(** Line 438, with the host the user pastes in. *)
Definition cell_connect (host : string) : Py unit :=
  assign "client" (VClient host 8182%N).

(** [wr.neptune.execute_gremlin(client, q)]: one request to the store. *)
Definition execute_gremlin (client : value) (q : string) : Py unit :=
  match client with
  | VClient _ _ => λ st,
      inr (tt, {| vars := vars st; requests := requests st ++ [q] |})
  | _ => mthrow AttributeError
  end.

Definition drop_query (i : string) : string :=
  ("g.V().has('~id', '" +:+ i) +:+ "').drop();".

(** Lines 592-593: the clean-up cell. *)
Definition cleanup_body : Py unit :=
  c ← name "client";
  i ← name "i" ≫= as_str;
  execute_gremlin c (drop_query i).

Definition cell_cleanup : Py unit :=
  ids ← (f ← name "nodes_df" ≫= as_frame; subscript f "~id");
  for_in "i" (VScalar <$> ids) cleanup_body.

(** ** Reading the tables back *)

Definition dict_of (x : string) (st : State) : option table :=
  match vars st !! x with Some (VDict d) => Some d | _ => None end.

Definition frame_of (x : string) (st : State) : option table :=
  match vars st !! x with Some (VFrame f) => Some f | _ => None end.

(** The list stored under field [k] of the global dictionary [x]. *)
Definition column (x k : string) (st : State) : option (list scalar) :=
  dict_of x st ≫= (.!! k).

Definition node_fields : list string :=
  ["~id"; "~label"; "idx"; "atomicNumber"; "isAromatic"].

Definition edge_fields : list string :=
  ["~id"; "~label"; "~from"; "~to"].

(** The state the projection cell is meant to run in: the descriptor and
    the parsed molecule are bound and both dictionaries are as the data
    model cell leaves them.  Nothing is asked of the other names or of the
    request log. *)
Definition projection_input (s : string) (m : Mol) (st : State) : Prop :=
  vars st !! "caffeine_smiles" = Some (VStr s) ∧
  vars st !! "mol" = Some (VMol m) ∧
  vars st !! "nodes_dict" = Some (VDict nodes_dict_init) ∧
  vars st !! "edges_dict" = Some (VDict edges_dict_init).

(** The identifiers the two loops build. *)
Definition node_id (s : string) (idx : nat) : string :=
  ("Node-" +:+ s) +:+ str idx.

Definition edge_id (s : string) (b e : nat) : string :=
  (("edge-" +:+ s) +:+ str b) +:+ str e.

(** Every bond joins two atoms of the molecule. *)
Definition bonds_in_range (m : Mol) : Prop :=
  ∀ b, b ∈ GetBonds m →
    GetBeginAtomIdx b ∈ GetIdx <$> GetAtoms m ∧
    GetEndAtomIdx b ∈ GetIdx <$> GetAtoms m.

Definition endpoints (b : Bond) : nat * nat :=
  (GetBeginAtomIdx b, GetEndAtomIdx b).

(** ** Concrete molecules *)

(** The molecular graph written by the caffeine descriptor: atoms numbered
    in the order they are written, one bond per adjacency, the two ring
    closures last.  Flags and bond types follow the toolkit's aromaticity
    model; only the counts and indices matter below. *)
Definition caffeine_mol : Mol :=
  {| GetAtoms :=
       [ mkAtom 0 "C" 6 false; mkAtom 1 "N" 7 true; mkAtom 2 "C" 6 true;
         mkAtom 3 "N" 7 true; mkAtom 4 "C" 6 true; mkAtom 5 "C" 6 true;
         mkAtom 6 "C" 6 true; mkAtom 7 "O" 8 false; mkAtom 8 "N" 7 true;
         mkAtom 9 "C" 6 true; mkAtom 10 "O" 8 false; mkAtom 11 "N" 7 true;
         mkAtom 12 "C" 6 false; mkAtom 13 "C" 6 false ];
     GetBonds :=
       [ mkBond 0 1 SINGLE; mkBond 1 2 AROMATIC; mkBond 2 3 AROMATIC;
         mkBond 3 4 AROMATIC; mkBond 4 5 AROMATIC; mkBond 5 6 AROMATIC;
         mkBond 6 7 DOUBLE; mkBond 6 8 AROMATIC; mkBond 8 9 AROMATIC;
         mkBond 9 10 DOUBLE; mkBond 9 11 AROMATIC; mkBond 11 12 SINGLE;
         mkBond 8 13 SINGLE; mkBond 5 1 AROMATIC; mkBond 11 4 AROMATIC ] |}.

(** Ethanol, [CCO]. *)
Definition ethanol_mol : Mol :=
  {| GetAtoms := [ mkAtom 0 "C" 6 false; mkAtom 1 "C" 6 false;
                   mkAtom 2 "O" 8 false ];
     GetBonds := [ mkBond 0 1 SINGLE; mkBond 1 2 SINGLE ] |}.

(** [CC(C1CCCCCCCCC1)C]: a ten-membered ring closed from atom 11 to atom 2,
    and a methyl (atom 12) on atom 1. *)
Definition cyclodecyl : string := "CC(C1CCCCCCCCC1)C".

Definition cyclodecyl_mol : Mol :=
  {| GetAtoms := (λ i, mkAtom i "C" 6 false) <$> seq 0 13;
     GetBonds :=
       [ mkBond 0 1 SINGLE; mkBond 1 2 SINGLE; mkBond 2 3 SINGLE;
         mkBond 3 4 SINGLE; mkBond 4 5 SINGLE; mkBond 5 6 SINGLE;
         mkBond 6 7 SINGLE; mkBond 7 8 SINGLE; mkBond 8 9 SINGLE;
         mkBond 9 10 SINGLE; mkBond 10 11 SINGLE; mkBond 1 12 SINGLE;
         mkBond 11 2 SINGLE ] |}.

(** A kernel in which the data model cell has run and [s], [m] are bound. *)
Definition prepared (s : string) (m : Mol) : State :=
  {| vars := <["mol" := VMol m]> (<["caffeine_smiles" := VStr s]>
       (<["edges_dict" := VDict edges_dict_init]>
         (<["nodes_dict" := VDict nodes_dict_init]> ∅)));
     requests := [] |}.

(** ** Closed forms for the effect of the loops *)

(** Every list of a dictionary extended by the cells [new] gives for its
    field; fields that are not in the dictionary are not created. *)
Definition grow (new : string → list scalar) (t : table) : table :=
  map_imap (λ k c, Some (c ++ new k)) t.

(** The cells one node record contributes, field by field. *)
Definition atom_cells (s : string) (a : Atom) (k : string) : list scalar :=
  if decide (k = "~id") then [SStr (node_id s (GetIdx a))]
  else if decide (k = "~label") then [SStr (GetSymbol a)]
  else if decide (k = "idx") then [SInt (GetIdx a)]
  else if decide (k = "atomicNumber") then [SInt (GetAtomicNum a)]
  else if decide (k = "isAromatic") then [SBool (GetIsAromatic a)]
  else [].

(** The cells one edge record contributes, field by field. *)
Definition bond_cells (s : string) (b : Bond) (k : string) : list scalar :=
  if decide (k = "~id")
  then [SStr (edge_id s (GetBeginAtomIdx b) (GetEndAtomIdx b))]
  else if decide (k = "~label") then [SStr (str_BondType (GetBondType b))]
  else if decide (k = "~from") then [SStr (node_id s (GetBeginAtomIdx b))]
  else if decide (k = "~to") then [SStr (node_id s (GetEndAtomIdx b))]
  else [].

(** The loop target after a loop over [vs]: bound to the last item, or
    left as it was when there was none. *)
Definition rebind (x : string) (vs : list value) (g : gmap string value) :
    gmap string value :=
  match last vs with Some v => <[x := v]> g | None => g end.

(** Normal termination of a statement in a given final state. *)
Definition runs_to (p : Py unit) (st st' : State) : Prop :=
  p st = inr (tt, st').

(** ** Predicates used in the statements *)

(** Both dictionaries hold exactly the fields of the data model and all
    the lists of each have one length. *)
Definition well_formed_tables (st : State) : Prop :=
  ∃ tn te : table,
    dict_of "nodes_dict" st = Some tn ∧ dict_of "edges_dict" st = Some te ∧
    dom tn = list_to_set (C := gset string) node_fields ∧
    dom te = list_to_set (C := gset string) edge_fields ∧
    rectangular tn ∧ rectangular te.

(** The request log and every global name outside [xs] are as before. *)
Definition unchanged_outside (xs : list string) (st st' : State) : Prop :=
  requests st' = requests st ∧ ∀ y, y ∉ xs → vars st' !! y = vars st !! y.

(** The list stored under field [k] of the data frame bound to [x]. *)
Definition frame_column (x k : string) (st : State) : option (list scalar) :=
  frame_of x st ≫= (.!! k).

(** ** Further concrete kernels *)

(** A kernel that differs from [prepared s m] in everything the projection
    cell does not read: a connection, a stale loop target, and requests
    already sent. *)
Definition busy (s : string) (m : Mol) : State :=
  {| vars := <["client" := VClient "localhost" 8182%N]>
               (<["atom" := VScalar (SInt 5)]> (vars (prepared s m)));
     requests := ["g.V().count()"] |}.

(** A parser that knows the caffeine descriptor only. *)
Definition parse_caffeine (s : string) : option Mol :=
  if decide (s = caffeine) then Some caffeine_mol else None.

(** The cells from the data model to the projection, run in order. *)
Definition notebook (MolFromSmiles : string → option Mol) : Py unit :=
  cell_data_model;; cell_smiles;; cell_parse MolFromSmiles;; cell_projection.

(** ** Abnormal termination and further predicates *)

(** The statement raises [e] in [st]. *)
Definition raises {A : Type} (p : Py A) (st : State) (e : exc) : Prop :=
  p st = inl e.

(** Atoms are numbered by their position in the molecule, as the toolkit
    numbers them. *)
Definition indexed_by_position (m : Mol) : Prop :=
  ∀ k a, GetAtoms m !! k = Some a → GetIdx a = k.

(** The molecule with no atoms, the parse of the empty descriptor. *)
Definition empty_mol : Mol := {| GetAtoms := []; GetBonds := [] |}.

(** A kernel in which the data model cell has run and the descriptor [s]
    is bound, before the parse cell. *)
Definition unparsed (s : string) : State :=
  {| vars := <["caffeine_smiles" := VStr s]>
       (<["edges_dict" := VDict edges_dict_init]>
         (<["nodes_dict" := VDict nodes_dict_init]> ∅));
     requests := [] |}.

(** A kernel in which [nodes_dict] is [tn] and everything else is as in
    [prepared s m]. *)
Definition prepared_with (tn : table) (s : string) (m : Mol) : State :=
  {| vars := <["nodes_dict" := VDict tn]> (vars (prepared s m));
     requests := [] |}.

(** The data model with a field of the user's own added to the nodes. *)
Definition nodes_dict_charge : table := <["charge" := []]> nodes_dict_init.

(** A kernel holding a hand-edited node frame and a connection. *)
Definition edited_frame_kernel : State :=
  {| vars := <["client" := VClient "localhost" 8182%N]>
       (<["nodes_df" := VFrame (<["~id" := [SStr "a"; SStr "b"; SStr "a"]]> ∅)]>
          ∅);
     requests := ["g.V().count()"] |}.

(** The kernel [prepared caffeine caffeine_mol] after the projection cell
    has run once in it. *)
Definition ran_once : State :=
  match cell_projection (prepared caffeine caffeine_mol) with
  | inr (_, st) => st
  | inl _ => prepared caffeine caffeine_mol
  end.

(** * Auxiliary lemmas *)

(** ** The monad *)

Lemma bind_inr {A B} (m : Py A) (f : A → Py B) st x st' :
  m st = inr (x, st') → (m ≫= f) st = f x st'.
Proof. intros H. unfold mbind, Py_bind. by rewrite H. Qed.

Lemma runs_to_seq (p q : Py unit) st st1 st2 :
  runs_to p st st1 → runs_to q st1 st2 → runs_to (p;; q) st st2.
Proof. unfold runs_to. intros Hp Hq. by rewrite (bind_inr _ _ _ _ _ Hp). Qed.

Lemma name_inr x st v : vars st !! x = Some v → name x st = inr (v, st).
Proof. intros H. unfold name. by rewrite H. Qed.

Lemma read_str x st s :
  vars st !! x = Some (VStr s) → (name x ≫= as_str) st = inr (s, st).
Proof. intros H. by rewrite (bind_inr _ _ _ _ _ (name_inr _ _ _ H)). Qed.

Lemma read_atom x st a :
  vars st !! x = Some (VAtom a) → (name x ≫= as_atom) st = inr (a, st).
Proof. intros H. by rewrite (bind_inr _ _ _ _ _ (name_inr _ _ _ H)). Qed.

Lemma read_bond x st b :
  vars st !! x = Some (VBond b) → (name x ≫= as_bond) st = inr (b, st).
Proof. intros H. by rewrite (bind_inr _ _ _ _ _ (name_inr _ _ _ H)). Qed.

Lemma read_mol x st m :
  vars st !! x = Some (VMol m) → (name x ≫= as_mol) st = inr (m, st).
Proof. intros H. by rewrite (bind_inr _ _ _ _ _ (name_inr _ _ _ H)). Qed.

Lemma read_dict x st d :
  vars st !! x = Some (VDict d) → (name x ≫= as_dict) st = inr (d, st).
Proof. intros H. by rewrite (bind_inr _ _ _ _ _ (name_inr _ _ _ H)). Qed.

(** Appending to a list that is there. *)
Lemma append_to_inr d k e st tbl col x :
  vars st !! d = Some (VDict tbl) →
  tbl !! k = Some col →
  e st = inr (x, st) →
  runs_to (append_to d k e) st
    {| vars := <[d := VDict (<[k := col ++ [x]]> tbl)]> (vars st);
       requests := requests st |}.
Proof.
  intros Hd Hk He. unfold runs_to, append_to.
  rewrite (bind_inr _ _ _ _ _ (read_dict _ _ _ Hd)).
  unfold subscript. rewrite Hk.
  unfold mbind at 1, Py_bind at 1. simpl.
  by rewrite (bind_inr _ _ _ _ _ He).
Qed.

(** ** Growing a dictionary of lists *)

Lemma lookup_grow new (t : table) k :
  grow new t !! k = (λ c, c ++ new k) <$> t !! k.
Proof. unfold grow. rewrite map_lookup_imap. by destruct (t !! k). Qed.

Lemma grow_nil (t : table) : grow (λ _, []) t = t.
Proof.
  apply map_eq. intros k. rewrite lookup_grow.
  destruct (t !! k); simpl; by rewrite ?app_nil_r.
Qed.

Lemma grow_grow f g (t : table) :
  grow g (grow f t) = grow (λ k, f k ++ g k) t.
Proof.
  apply map_eq. intros k. rewrite !lookup_grow.
  destruct (t !! k); simpl; by rewrite ?app_assoc.
Qed.

Lemma grow_is_Some new (t : table) k : is_Some (t !! k) → is_Some (grow new t !! k).
Proof. rewrite lookup_grow. by intros [c ->]. Qed.

Lemma dom_grow new (t : table) : dom (grow new t) = dom t.
Proof.
  apply set_eq. intros k. rewrite !elem_of_dom, lookup_grow.
  by rewrite fmap_is_Some.
Qed.

(** ** One iteration *)

Lemma field_present (fields : list string) (t : table) k :
  (∀ k, k ∈ fields → is_Some (t !! k)) → k ∈ fields → ∃ c, t !! k = Some c.
Proof. intros H Hk. by apply H. Qed.

Ltac field H k c E :=
  destruct (field_present _ _ k H) as [c E]; [by repeat constructor|].

Lemma runs_to_eq p st st1 st2 :
  runs_to p st st1 → st1 = st2 → runs_to p st st2.
Proof. by intros H <-. Qed.

Ltac eval_reads :=
  repeat (erewrite bind_inr;
    [| first [apply read_str | apply read_atom | apply read_bond];
       simpl; by simplify_map_eq]);
  reflexivity.

Ltac step_append :=
  eapply append_to_inr;
  [ simpl; by simplify_map_eq | by simplify_map_eq | eval_reads ].

Lemma atom_body_inr st s a (t : table) :
  vars st !! "caffeine_smiles" = Some (VStr s) →
  vars st !! "atom" = Some (VAtom a) →
  vars st !! "nodes_dict" = Some (VDict t) →
  (∀ k, k ∈ node_fields → is_Some (t !! k)) →
  runs_to atom_body st
    {| vars := <["nodes_dict" := VDict (grow (atom_cells s a) t)]> (vars st);
       requests := requests st |}.
Proof.
  intros Hs Ha Ht Hf.
  field Hf "~id" c1 E1. field Hf "~label" c2 E2. field Hf "idx" c3 E3.
  field Hf "atomicNumber" c4 E4. field Hf "isAromatic" c5 E5.
  unfold atom_body.
  do 4 (eapply runs_to_seq; [step_append | simpl]).
  eapply runs_to_eq; [step_append |].
  simpl. rewrite !insert_insert_eq. do 3 f_equal.
  apply map_eq. intros k. rewrite lookup_grow. unfold atom_cells, node_id.
  repeat case_decide; simplify_map_eq; try done.
  destruct (t !! k); simpl; by rewrite ?app_nil_r.
Qed.

Lemma bond_body_inr st s b (t : table) :
  vars st !! "caffeine_smiles" = Some (VStr s) →
  vars st !! "bond" = Some (VBond b) →
  vars st !! "edges_dict" = Some (VDict t) →
  (∀ k, k ∈ edge_fields → is_Some (t !! k)) →
  runs_to bond_body st
    {| vars := <["edges_dict" := VDict (grow (bond_cells s b) t)]> (vars st);
       requests := requests st |}.
Proof.
  intros Hs Hb Ht Hf.
  field Hf "~id" c1 E1. field Hf "~label" c2 E2. field Hf "~from" c3 E3.
  field Hf "~to" c4 E4.
  unfold bond_body.
  do 3 (eapply runs_to_seq; [step_append | simpl]).
  eapply runs_to_eq; [step_append |].
  simpl. rewrite !insert_insert_eq. do 3 f_equal.
  apply map_eq. intros k. rewrite lookup_grow.
  unfold bond_cells, node_id, edge_id.
  repeat case_decide; simplify_map_eq; try done.
  destruct (t !! k); simpl; by rewrite ?app_nil_r.
Qed.

(** ** The loops *)

Lemma lookup_rebind_ne x vs (g : gmap string value) y :
  x ≠ y → rebind x vs g !! y = g !! y.
Proof.
  intros Hxy. unfold rebind. destruct (last vs); [|done].
  by rewrite lookup_insert_ne.
Qed.

Lemma lookup_rebind_eq x vs (g : gmap string value) :
  rebind x vs g !! x = match last vs with Some v => Some v | None => g !! x end.
Proof. unfold rebind. destruct (last vs); [|done]. by rewrite lookup_insert_eq. Qed.

Section Loop.
Context {A : Type} (d x : string) (inj : A → value) (body : Py unit).
Context (cells : A → string → list scalar) (fields : list string) (s : string).

Hypothesis x_d : x ≠ d.
Hypothesis x_smiles : x ≠ "caffeine_smiles".
Hypothesis d_smiles : d ≠ "caffeine_smiles".
Hypothesis body_inr : ∀ st a (t : table),
  vars st !! "caffeine_smiles" = Some (VStr s) →
  vars st !! x = Some (inj a) →
  vars st !! d = Some (VDict t) →
  (∀ k, k ∈ fields → is_Some (t !! k)) →
  runs_to body st
    {| vars := <[d := VDict (grow (cells a) t)]> (vars st);
       requests := requests st |}.

(** A loop over [items] extends every list of the dictionary by the cells
    of the items, in order, and leaves the target bound to the last item. *)
Lemma for_in_inr items : ∀ st (t : table),
  vars st !! "caffeine_smiles" = Some (VStr s) →
  vars st !! d = Some (VDict t) →
  (∀ k, k ∈ fields → is_Some (t !! k)) →
  runs_to (for_in x (inj <$> items) body) st
    {| vars := <[d := VDict (grow (λ k, a ← items; cells a k) t)]>
                 (rebind x (inj <$> items) (vars st));
       requests := requests st |}.
Proof.
  induction items as [|a items IH]; intros st t Hs Hd Hf.
  - destruct st as [g r]. simpl in *. unfold runs_to, rebind. simpl.
    unfold mret, Py_ret. do 3 f_equal.
    rewrite grow_nil. by rewrite insert_id.
  - rewrite fmap_cons. cbn [for_in]. eapply runs_to_seq; [reflexivity|].
    eapply runs_to_seq.
    { apply body_inr with (a := a) (t := t); simpl; by simplify_map_eq. }
    eapply runs_to_eq.
    { apply IH with (t := grow (cells a) t); simpl; try by simplify_map_eq.
      intros k Hk. by apply grow_is_Some, Hf. }
    cbn [vars requests]. f_equal. rewrite grow_grow.
    unfold rebind. rewrite last_cons.
    apply map_eq. intros i.
    destruct (last (inj <$> items)); rewrite !lookup_insert;
      repeat case_decide; simplify_eq; done.
Qed.

End Loop.

Lemma atom_loop_inr s atoms st (t : table) :
  vars st !! "caffeine_smiles" = Some (VStr s) →
  vars st !! "nodes_dict" = Some (VDict t) →
  (∀ k, k ∈ node_fields → is_Some (t !! k)) →
  runs_to (atom_loop atoms) st
    {| vars := <["nodes_dict" := VDict (grow (λ k, a ← atoms; atom_cells s a k) t)]>
                 (rebind "atom" (VAtom <$> atoms) (vars st));
       requests := requests st |}.
Proof.
  intros. unfold atom_loop.
  eapply (for_in_inr "nodes_dict" "atom" VAtom atom_body (atom_cells s));
    eauto using atom_body_inr.
Qed.

Lemma bond_loop_inr s bonds st (t : table) :
  vars st !! "caffeine_smiles" = Some (VStr s) →
  vars st !! "edges_dict" = Some (VDict t) →
  (∀ k, k ∈ edge_fields → is_Some (t !! k)) →
  runs_to (bond_loop bonds) st
    {| vars := <["edges_dict" := VDict (grow (λ k, b ← bonds; bond_cells s b k) t)]>
                 (rebind "bond" (VBond <$> bonds) (vars st));
       requests := requests st |}.
Proof.
  intros. unfold bond_loop.
  eapply (for_in_inr "edges_dict" "bond" VBond bond_body (bond_cells s));
    eauto using bond_body_inr.
Qed.

(** ** Identifiers *)

Lemma append_cons a s t : String a s +:+ t = String a (s +:+ t).
Proof. reflexivity. Qed.

Lemma append_length s t :
  String.length (s +:+ t) = String.length s + String.length t.
Proof. induction s as [|a s IH]; [done|]. rewrite append_cons. simpl. by rewrite IH. Qed.

Lemma append_assoc s t u : (s +:+ t) +:+ u = s +:+ (t +:+ u).
Proof. induction s as [|a s IH]; [done|]. rewrite !append_cons. by rewrite IH. Qed.

(** Cancelling a common suffix. *)
Lemma append_inj_suffix t s1 s2 : s1 +:+ t = s2 +:+ t → s1 = s2.
Proof.
  revert s2. induction s1 as [|a s1 IH]; intros [|b s2] E.
  - done.
  - apply (f_equal String.length) in E. rewrite !append_length in E.
    simpl in E. lia.
  - apply (f_equal String.length) in E. rewrite !append_length in E.
    simpl in E. lia.
  - rewrite !append_cons in E. injection E as -> E. f_equal. by apply IH.
Qed.

Lemma node_id_inj s i j : node_id s i = node_id s j → i = j.
Proof.
  unfold node_id, str. intros E.
  apply (inj (String.app _)) in E. by apply (inj pretty) in E.
Qed.

Lemma drop_query_inj i j : drop_query i = drop_query j → i = j.
Proof.
  unfold drop_query. intros E.
  apply append_inj_suffix in E. by apply (inj (String.app _)) in E.
Qed.

(** A single decimal digit renders as one character. *)
Lemma str_digit n : n < 10 → ∃ c, str n = String c "".
Proof.
  intros Hn. do 10 (destruct n as [|n]; [by eexists|]). lia.
Qed.

(** With single-digit indices the two renderings can be told apart even
    though nothing separates them. *)
Lemma edge_id_inj_digits s b e b' e' :
  b < 10 → e < 10 → b' < 10 → e' < 10 →
  edge_id s b e = edge_id s b' e' → b = b' ∧ e = e'.
Proof.
  intros Hb He Hb' He' E. unfold edge_id in E.
  rewrite !append_assoc in E. do 2 apply (inj (String.app _)) in E.
  destruct (str_digit b Hb) as [c Ec], (str_digit e He) as [d Ed].
  destruct (str_digit b' Hb') as [c' Ec'], (str_digit e' He') as [d' Ed'].
  rewrite Ec, Ed, Ec', Ed' in E. cbv [String.append] in E.
  injection E as -> ->.
  split; apply (inj pretty); unfold str in *; congruence.
Qed.

(** The two tags differ, so an edge identifier is never a node identifier. *)
Lemma edge_id_not_node_id s b e s' i : edge_id s b e ≠ node_id s' i.
Proof. unfold edge_id, node_id. rewrite !append_assoc. discriminate. Qed.

(** ** Columns of the grown dictionaries *)

Lemma bind_cells {A} (cells : A → string → list scalar) f k (items : list A) :
  (∀ a, cells a k = [f a]) → (a ← items; cells a k) = f <$> items.
Proof.
  intros E. induction items as [|a items IH]; [done|].
  rewrite bind_cons, E, IH. by rewrite fmap_cons.
Qed.

Lemma atom_cells_single s k :
  k ∈ node_fields → ∃ f, ∀ a, atom_cells s a k = [f a].
Proof.
  unfold node_fields. rewrite !elem_of_cons, elem_of_nil.
  intros [->|[->|[->|[->|[->|[]]]]]]; by eexists.
Qed.

Lemma bond_cells_single s k :
  k ∈ edge_fields → ∃ f, ∀ b, bond_cells s b k = [f b].
Proof.
  unfold edge_fields. rewrite !elem_of_cons, elem_of_nil.
  intros [->|[->|[->|[->|[]]]]]; by eexists.
Qed.

Lemma nodes_dict_init_lookup k c :
  nodes_dict_init !! k = Some c ↔ k ∈ node_fields ∧ c = [].
Proof.
  unfold nodes_dict_init, node_fields.
  rewrite !lookup_insert_Some, lookup_empty, !elem_of_cons, elem_of_nil.
  intuition (subst; auto; congruence).
Qed.

Lemma edges_dict_init_lookup k c :
  edges_dict_init !! k = Some c ↔ k ∈ edge_fields ∧ c = [].
Proof.
  unfold edges_dict_init, edge_fields.
  rewrite !lookup_insert_Some, lookup_empty, !elem_of_cons, elem_of_nil.
  intuition (subst; auto; congruence).
Qed.

(** ** Decimal rendering *)

Lemma pretty_N_go_append x s : pretty_N_go x s = pretty_N_go x "" +:+ s.
Proof.
  revert s. induction (N.lt_wf_0 x) as [x _ IH]; intros s.
  destruct (decide (x = 0)%N) as [->|Hx]; [done|].
  rewrite !(pretty_N_go_step x) by lia.
  rewrite (IH (x `div` 10)%N) by (apply N.div_lt; lia).
  rewrite (IH (x `div` 10)%N ltac:(apply N.div_lt; lia) (String _ "")).
  by rewrite append_assoc.
Qed.

Lemma pretty_N_digit (d : N) :
  (d < 10)%N → pretty d = String (pretty_N_char d) "".
Proof.
  intros Hd. unfold pretty, pretty_N.
  destruct (decide (d = 0)%N) as [->|Hd0]; [done|].
  rewrite pretty_N_go_step by lia.
  rewrite N.div_small, N.mod_small by done. done.
Qed.

(** [str] writes the number in base ten: one digit below ten, and above it
    the rendering of the tens followed by the last digit. *)
Lemma str_decimal n :
  10 ≤ n → str n = str (n `div` 10) +:+ str (n `mod` 10).
Proof.
  intros Hn. unfold str, pretty at 1 2 3, pretty_nat.
  rewrite Nat2N.inj_div, Nat2N.inj_mod. change (N.of_nat 10) with 10%N.
  set (x := N.of_nat n). assert (10 ≤ x)%N as Hx by lia.
  rewrite (pretty_N_digit (x `mod` 10)) by (apply N.mod_lt; lia).
  unfold pretty, pretty_N.
  assert (x `div` 10 ≠ 0)%N as Hq.
  { intros Hq. apply N.div_small_iff in Hq; lia. }
  rewrite !decide_False by lia.
  rewrite (pretty_N_go_step x) by lia. apply pretty_N_go_append.
Qed.

Lemma str_examples :
  str 0 = "0" ∧ str 7 = "7" ∧ str 12 = "12" ∧ str 114 = "114".
Proof. by vm_compute. Qed.

(** ** The projection cell *)

Lemma runs_to_read_mol (f : Mol → Py unit) st m st' :
  vars st !! "mol" = Some (VMol m) →
  runs_to (f m) st st' →
  runs_to (m ← name "mol" ≫= as_mol; f m) st st'.
Proof.
  intros Hm Hf. unfold runs_to.
  by rewrite (bind_inr _ _ _ _ _ (read_mol _ _ _ Hm)).
Qed.

(** The projection cell run on any dictionaries that have the fields of the
    data model: every list grows by one cell per atom (per bond), and the
    two loop targets are left bound to the last atom and the last bond. *)
Lemma projection_inr s m st (tn te : table) :
  vars st !! "caffeine_smiles" = Some (VStr s) →
  vars st !! "mol" = Some (VMol m) →
  vars st !! "nodes_dict" = Some (VDict tn) →
  vars st !! "edges_dict" = Some (VDict te) →
  (∀ k, k ∈ node_fields → is_Some (tn !! k)) →
  (∀ k, k ∈ edge_fields → is_Some (te !! k)) →
  runs_to cell_projection st
    {| vars :=
         <["edges_dict" :=
             VDict (grow (λ k, b ← GetBonds m; bond_cells s b k) te)]>
           (rebind "bond" (VBond <$> GetBonds m)
             (<["nodes_dict" :=
                  VDict (grow (λ k, a ← GetAtoms m; atom_cells s a k) tn)]>
               (rebind "atom" (VAtom <$> GetAtoms m) (vars st))));
       requests := requests st |}.
Proof.
  intros Hs Hm Hn He Hfn Hfe. unfold cell_projection.
  eapply runs_to_seq.
  - eapply runs_to_read_mol; [exact Hm|].
    by apply atom_loop_inr with (s := s) (t := tn).
  - eapply runs_to_read_mol.
    { cbn [vars]. rewrite lookup_insert_ne, lookup_rebind_ne by done.
      exact Hm. }
    eapply runs_to_eq.
    { apply bond_loop_inr with (s := s) (t := te); cbn [vars]; [| |done];
        by rewrite lookup_insert_ne, lookup_rebind_ne. }
    reflexivity.
Qed.

Lemma init_node_fields k : k ∈ node_fields → is_Some (nodes_dict_init !! k).
Proof. intros Hk. exists []. by apply nodes_dict_init_lookup. Qed.

Lemma init_edge_fields k : k ∈ edge_fields → is_Some (edges_dict_init !! k).
Proof. intros Hk. exists []. by apply edges_dict_init_lookup. Qed.

(** What the cell leaves behind when run on the freshly initialised
    dictionaries. *)
Lemma projection_from_input s m st :
  projection_input s m st →
  ∃ st', runs_to cell_projection st st' ∧
    requests st' = requests st ∧
    dict_of "nodes_dict" st'
      = Some (grow (λ k, a ← GetAtoms m; atom_cells s a k) nodes_dict_init) ∧
    dict_of "edges_dict" st'
      = Some (grow (λ k, b ← GetBonds m; bond_cells s b k) edges_dict_init) ∧
    vars st' !! "atom"
      = from_option (Some ∘ VAtom) (vars st !! "atom") (last (GetAtoms m)) ∧
    vars st' !! "bond"
      = from_option (Some ∘ VBond) (vars st !! "bond") (last (GetBonds m)) ∧
    (∀ y, y ∉ ["nodes_dict"; "edges_dict"; "atom"; "bond"] →
       vars st' !! y = vars st !! y).
Proof.
  intros (Hs & Hm & Hn & He). eexists. split.
  { eapply projection_inr; eauto using init_node_fields, init_edge_fields. }
  cbn [vars requests]. unfold dict_of. cbn [vars].
  split_and!.
  - done.
  - rewrite lookup_insert_ne, lookup_rebind_ne, lookup_insert_eq; done.
  - by rewrite lookup_insert_eq.
  - rewrite lookup_insert_ne, lookup_rebind_ne, lookup_insert_ne by done.
    rewrite lookup_rebind_eq, fmap_last. by destruct (last (GetAtoms m)).
  - rewrite lookup_insert_ne, lookup_rebind_eq, fmap_last by done.
    destruct (last (GetBonds m)); [done|].
    simpl. by rewrite lookup_insert_ne, lookup_rebind_ne.
  - intros y Hy. rewrite !not_elem_of_cons in Hy.
    destruct Hy as (? & ? & ? & ? & _).
    by rewrite lookup_insert_ne, lookup_rebind_ne, lookup_insert_ne,
      lookup_rebind_ne.
Qed.

Lemma node_column s atoms k f :
  k ∈ node_fields → (∀ a, atom_cells s a k = [f a]) →
  grow (λ k, a ← atoms; atom_cells s a k) nodes_dict_init !! k
    = Some (f <$> atoms).
Proof.
  intros Hk Hf. rewrite lookup_grow.
  rewrite (proj2 (nodes_dict_init_lookup k []) (conj Hk eq_refl)).
  simpl. by rewrite (bind_cells _ f).
Qed.

Lemma edge_column s bonds k f :
  k ∈ edge_fields → (∀ b, bond_cells s b k = [f b]) →
  grow (λ k, b ← bonds; bond_cells s b k) edges_dict_init !! k
    = Some (f <$> bonds).
Proof.
  intros Hk Hf. rewrite lookup_grow.
  rewrite (proj2 (edges_dict_init_lookup k []) (conj Hk eq_refl)).
  simpl. by rewrite (bind_cells _ f).
Qed.

Lemma grown_nodes_lookup s atoms k c :
  grow (λ k, a ← atoms; atom_cells s a k) nodes_dict_init !! k = Some c →
  k ∈ node_fields ∧ length c = length atoms.
Proof.
  rewrite lookup_grow. intros E.
  destruct (nodes_dict_init !! k) as [c0|] eqn:E0; [|done].
  apply nodes_dict_init_lookup in E0 as [Hk ->]. split; [done|].
  destruct (atom_cells_single s k Hk) as [f Hf].
  simpl in E. rewrite (bind_cells _ f) in E by done.
  injection E as <-. by rewrite length_fmap.
Qed.

Lemma grown_edges_lookup s bonds k c :
  grow (λ k, b ← bonds; bond_cells s b k) edges_dict_init !! k = Some c →
  k ∈ edge_fields ∧ length c = length bonds.
Proof.
  rewrite lookup_grow. intros E.
  destruct (edges_dict_init !! k) as [c0|] eqn:E0; [|done].
  apply edges_dict_init_lookup in E0 as [Hk ->]. split; [done|].
  destruct (bond_cells_single s k Hk) as [f Hf].
  simpl in E. rewrite (bind_cells _ f) in E by done.
  injection E as <-. by rewrite length_fmap.
Qed.

Lemma dom_nodes_dict_init :
  dom nodes_dict_init = list_to_set (C := gset string) node_fields.
Proof.
  apply set_eq. intros k. rewrite elem_of_dom, elem_of_list_to_set. split.
  - intros [c Hc]. by apply nodes_dict_init_lookup in Hc as [? _].
  - apply init_node_fields.
Qed.

Lemma dom_edges_dict_init :
  dom edges_dict_init = list_to_set (C := gset string) edge_fields.
Proof.
  apply set_eq. intros k. rewrite elem_of_dom, elem_of_list_to_set. split.
  - intros [c Hc]. by apply edges_dict_init_lookup in Hc as [? _].
  - apply init_edge_fields.
Qed.

Lemma rectangular_grown_nodes s atoms :
  rectangular (grow (λ k, a ← atoms; atom_cells s a k) nodes_dict_init).
Proof.
  intros k1 c1 E1 k2 c2 E2. simpl.
  apply grown_nodes_lookup in E1 as [_ ->].
  by apply grown_nodes_lookup in E2 as [_ ->].
Qed.

Lemma rectangular_grown_edges s bonds :
  rectangular (grow (λ k, b ← bonds; bond_cells s b k) edges_dict_init).
Proof.
  intros k1 c1 E1 k2 c2 E2. simpl.
  apply grown_edges_lookup in E1 as [_ ->].
  by apply grown_edges_lookup in E2 as [_ ->].
Qed.

Lemma well_formed_grown s atoms bonds st :
  dict_of "nodes_dict" st
    = Some (grow (λ k, a ← atoms; atom_cells s a k) nodes_dict_init) →
  dict_of "edges_dict" st
    = Some (grow (λ k, b ← bonds; bond_cells s b k) edges_dict_init) →
  well_formed_tables st.
Proof.
  intros Hn He. do 2 eexists. split_and!; [exact Hn | exact He | ..].
  - by rewrite dom_grow, dom_nodes_dict_init.
  - by rewrite dom_grow, dom_edges_dict_init.
  - apply rectangular_grown_nodes.
  - apply rectangular_grown_edges.
Qed.

(** The state after the atom loop has run over any list of atoms, and
    after the bond loop has then run over any list of bonds. *)
Lemma loops_from_input s m st atoms bonds :
  projection_input s m st →
  ∃ st1 st2,
    runs_to (atom_loop atoms) st st1 ∧
    runs_to (bond_loop bonds) st1 st2 ∧
    dict_of "nodes_dict" st1
      = Some (grow (λ k, a ← atoms; atom_cells s a k) nodes_dict_init) ∧
    dict_of "edges_dict" st1 = Some edges_dict_init ∧
    dict_of "nodes_dict" st2
      = Some (grow (λ k, a ← atoms; atom_cells s a k) nodes_dict_init) ∧
    dict_of "edges_dict" st2
      = Some (grow (λ k, b ← bonds; bond_cells s b k) edges_dict_init).
Proof.
  intros (Hs & Hm & Hn & He). do 2 eexists. split_and!.
  - apply atom_loop_inr with (s := s) (t := nodes_dict_init);
      eauto using init_node_fields.
  - apply bond_loop_inr with (s := s) (t := edges_dict_init);
      cbn [vars]; eauto using init_edge_fields;
      by rewrite lookup_insert_ne, lookup_rebind_ne.
  - unfold dict_of. cbn [vars]. by rewrite lookup_insert_eq.
  - unfold dict_of. cbn [vars].
    by rewrite lookup_insert_ne, lookup_rebind_ne, He.
  - unfold dict_of. cbn [vars].
    by rewrite lookup_insert_ne, lookup_rebind_ne, lookup_insert_eq.
  - unfold dict_of. cbn [vars]. by rewrite lookup_insert_eq.
Qed.

(** A loop over a list passes through the state the loop over any prefix
    ends in. *)
Lemma for_in_app x l1 l2 body st :
  for_in x (l1 ++ l2) body st = (for_in x l1 body;; for_in x l2 body) st.
Proof.
  revert st. induction l1 as [|v l1 IH]; intros st; [done|].
  cbn [app for_in]. unfold mbind, Py_bind.
  destruct (assign x v st) as [e|[[] st1]]; [done|].
  destruct (body st1) as [e|[[] st2]]; [done|].
  apply IH.
Qed.

Lemma for_in_prefix x l i body st st1 st2 :
  runs_to (for_in x (take i l) body) st st1 →
  runs_to (for_in x (drop i l) body) st1 st2 →
  runs_to (for_in x l body) st st2.
Proof.
  intros H1 H2. unfold runs_to. rewrite <- (take_drop i l), for_in_app.
  by apply runs_to_seq with st1.
Qed.

(** * Properties of the cells *)

(** C1. Run on the freshly initialised dictionaries for a molecule with N
    atoms and M bonds, the projection cell terminates normally; afterwards
    [nodes_dict] has exactly its five fields and every one of their lists
    has length N, and [edges_dict] has exactly its four fields and every one
    of their lists has length M: one node record per atom and one edge
    record per bond. *)
Theorem projection_row_counts s m st :
  projection_input s m st →
  ∃ st' (tn te : table),
    runs_to cell_projection st st' ∧
    dict_of "nodes_dict" st' = Some tn ∧
    dict_of "edges_dict" st' = Some te ∧
    dom tn = list_to_set (C := gset string) node_fields ∧
    dom te = list_to_set (C := gset string) edge_fields ∧
    (∀ k c, tn !! k = Some c → length c = length (GetAtoms m)) ∧
    (∀ k c, te !! k = Some c → length c = length (GetBonds m)).
Proof.
  intros Hin.
  destruct (projection_from_input s m st Hin)
    as (st' & Hrun & _ & Hn & He & _).
  exists st'. do 2 eexists. split_and!; [exact Hrun | exact Hn | exact He | ..].
  - by rewrite dom_grow, dom_nodes_dict_init.
  - by rewrite dom_grow, dom_edges_dict_init.
  - intros k c Hc. by apply grown_nodes_lookup in Hc as [_ ?].
  - intros k c Hc. by apply grown_edges_lookup in Hc as [_ ?].
Qed.

Lemma projection_row_counts_witness :
  projection_input caffeine caffeine_mol (prepared caffeine caffeine_mol) ∧
  ∃ st' (tn te : table),
    runs_to cell_projection (prepared caffeine caffeine_mol) st' ∧
    dict_of "nodes_dict" st' = Some tn ∧
    dict_of "edges_dict" st' = Some te ∧
    dom tn = list_to_set (C := gset string) node_fields ∧
    dom te = list_to_set (C := gset string) edge_fields ∧
    (∀ k c, tn !! k = Some c → length c = length (GetAtoms caffeine_mol)) ∧
    (∀ k c, te !! k = Some c → length c = length (GetBonds caffeine_mol)).
Proof.
  assert (H : projection_input caffeine caffeine_mol
                (prepared caffeine caffeine_mol)) by (by vm_compute).
  split; [exact H|].
  exact (projection_row_counts caffeine caffeine_mol _ H).
Defined.

(** C2. Referential consistency: when every bond of the molecule begins and
    ends at the index of one of its atoms, every [~from] and every [~to]
    cell of [edges_dict] after the projection is one of the [~id] cells of
    [nodes_dict] after the same run. *)
Theorem edges_reference_nodes s m st :
  projection_input s m st →
  bonds_in_range m →
  ∃ st' ids froms tos,
    runs_to cell_projection st st' ∧
    column "nodes_dict" "~id" st' = Some ids ∧
    column "edges_dict" "~from" st' = Some froms ∧
    column "edges_dict" "~to" st' = Some tos ∧
    (∀ f, f ∈ froms → f ∈ ids) ∧
    (∀ t, t ∈ tos → t ∈ ids).
Proof.
  intros Hin Hrange.
  destruct (projection_from_input s m st Hin)
    as (st' & Hrun & _ & Hn & He & _).
  exists st'. do 3 eexists. unfold column. rewrite Hn, He. cbn [mbind option_bind].
  split_and!; [exact Hrun | | | | |].
  - apply node_column with (f := λ a, SStr (node_id s (GetIdx a)));
      [by repeat constructor | done].
  - apply edge_column with (f := λ b, SStr (node_id s (GetBeginAtomIdx b)));
      [by repeat constructor | done].
  - apply edge_column with (f := λ b, SStr (node_id s (GetEndAtomIdx b)));
      [by repeat constructor | done].
  - intros f (b & -> & Hb)%list_elem_of_fmap.
    destruct (Hrange b Hb) as [(a & E & Ha)%list_elem_of_fmap _].
    apply list_elem_of_fmap. exists a. by rewrite E.
  - intros t (b & -> & Hb)%list_elem_of_fmap.
    destruct (Hrange b Hb) as [_ (a & E & Ha)%list_elem_of_fmap].
    apply list_elem_of_fmap. exists a. by rewrite E.
Qed.

Lemma edges_reference_nodes_witness :
  projection_input caffeine caffeine_mol (prepared caffeine caffeine_mol) ∧
  bonds_in_range caffeine_mol ∧
  ∃ st' ids froms tos,
    runs_to cell_projection (prepared caffeine caffeine_mol) st' ∧
    column "nodes_dict" "~id" st' = Some ids ∧
    column "edges_dict" "~from" st' = Some froms ∧
    column "edges_dict" "~to" st' = Some tos ∧
    (∀ f, f ∈ froms → f ∈ ids) ∧
    (∀ t, t ∈ tos → t ∈ ids).
Proof.
  assert (H : projection_input caffeine caffeine_mol
                (prepared caffeine caffeine_mol)) by (by vm_compute).
  assert (R : bonds_in_range caffeine_mol).
  { intros b Hb. apply list_elem_of_In in Hb. rewrite !list_elem_of_In.
    simpl in Hb. simpl. intuition (subst; simpl; tauto). }
  split; [exact H|]. split; [exact R|].
  exact (edges_reference_nodes caffeine caffeine_mol _ H R).
Defined.

Lemma NoDup_node_ids s atoms :
  NoDup (GetIdx <$> atoms) →
  NoDup ((λ a, SStr (node_id s (GetIdx a))) <$> atoms).
Proof.
  intros H.
  assert (Inj (=) (=) (λ i, SStr (node_id s i))) as Hinj.
  { intros i j E. apply node_id_inj with s. congruence. }
  apply (NoDup_fmap_2 (λ i, SStr (node_id s i))) in H.
  by rewrite <- list_fmap_compose in H.
Qed.

(** C3. When the atom indices of the molecule are pairwise distinct, the
    [~id] cells of [nodes_dict] after the projection are pairwise
    distinct. *)
Theorem node_ids_distinct s m st :
  projection_input s m st →
  NoDup (GetIdx <$> GetAtoms m) →
  ∃ st' ids,
    runs_to cell_projection st st' ∧
    column "nodes_dict" "~id" st' = Some ids ∧
    NoDup ids.
Proof.
  intros Hin Hnd.
  destruct (projection_from_input s m st Hin)
    as (st' & Hrun & _ & Hn & _).
  exists st'. eexists. unfold column. rewrite Hn. cbn [mbind option_bind].
  split_and!; [exact Hrun | |].
  - apply node_column with (f := λ a, SStr (node_id s (GetIdx a)));
      [by repeat constructor | done].
  - by apply NoDup_node_ids.
Qed.

Lemma node_ids_distinct_witness :
  projection_input caffeine caffeine_mol (prepared caffeine caffeine_mol) ∧
  NoDup (GetIdx <$> GetAtoms caffeine_mol) ∧
  ∃ st' ids,
    runs_to cell_projection (prepared caffeine caffeine_mol) st' ∧
    column "nodes_dict" "~id" st' = Some ids ∧
    NoDup ids.
Proof.
  assert (H : projection_input caffeine caffeine_mol
                (prepared caffeine caffeine_mol)) by (by vm_compute).
  assert (D : NoDup (GetIdx <$> GetAtoms caffeine_mol)).
  { apply (bool_decide_unpack _). by vm_compute. }
  split; [exact H|]. split; [exact D|].
  exact (node_ids_distinct caffeine caffeine_mol _ H D).
Defined.

(** C4. After the projection the [~id] list of [nodes_dict] holds, atom by
    atom, the tag [Node-] followed by the descriptor and by [str] of the atom
    index, and the [~id] list of [edges_dict] holds, bond by bond, the tag
    [edge-] followed by the descriptor, [str] of the begin index and [str]
    of the end index.  The strings are joined as they are: nothing is
    escaped, nothing is put between them, and an identifier that occurs
    twice is stored twice. *)
Theorem identifiers_are_concatenations s m st :
  projection_input s m st →
  ∃ st',
    runs_to cell_projection st st' ∧
    column "nodes_dict" "~id" st'
      = Some ((λ a, SStr ("Node-" +:+ s +:+ str (GetIdx a))) <$> GetAtoms m) ∧
    column "edges_dict" "~id" st'
      = Some ((λ b, SStr ("edge-" +:+ s +:+ str (GetBeginAtomIdx b)
                            +:+ str (GetEndAtomIdx b))) <$> GetBonds m).
Proof.
  intros Hin.
  destruct (projection_from_input s m st Hin)
    as (st' & Hrun & _ & Hn & He & _).
  exists st'. unfold column. rewrite Hn, He. cbn [mbind option_bind].
  split_and!; [exact Hrun | |].
  - apply node_column; [by repeat constructor|].
    intros a. unfold atom_cells, node_id. cbn. by rewrite append_assoc.
  - apply edge_column; [by repeat constructor|].
    intros b. unfold bond_cells, edge_id. cbn. by rewrite !append_assoc.
Qed.

Lemma identifiers_are_concatenations_witness :
  projection_input caffeine caffeine_mol (prepared caffeine caffeine_mol) ∧
  ∃ st',
    runs_to cell_projection (prepared caffeine caffeine_mol) st' ∧
    column "nodes_dict" "~id" st'
      = Some ((λ a, SStr ("Node-" +:+ caffeine +:+ str (GetIdx a)))
                <$> GetAtoms caffeine_mol) ∧
    column "edges_dict" "~id" st'
      = Some ((λ b, SStr ("edge-" +:+ caffeine +:+ str (GetBeginAtomIdx b)
                            +:+ str (GetEndAtomIdx b)))
                <$> GetBonds caffeine_mol).
Proof.
  assert (H : projection_input caffeine caffeine_mol
                (prepared caffeine caffeine_mol)) by (by vm_compute).
  split; [exact H|].
  exact (identifiers_are_concatenations caffeine caffeine_mol _ H).
Defined.

(** C5. Determinism: two runs of the projection cell on the same descriptor
    and molecule, each from freshly initialised dictionaries, both terminate
    normally and leave equal [nodes_dict] and equal [edges_dict], whatever
    else the two kernels hold. *)
Theorem projection_deterministic s m st1 st2 :
  projection_input s m st1 →
  projection_input s m st2 →
  ∃ st1' st2' (tn te : table),
    runs_to cell_projection st1 st1' ∧
    runs_to cell_projection st2 st2' ∧
    dict_of "nodes_dict" st1' = Some tn ∧
    dict_of "nodes_dict" st2' = Some tn ∧
    dict_of "edges_dict" st1' = Some te ∧
    dict_of "edges_dict" st2' = Some te.
Proof.
  intros H1 H2.
  destruct (projection_from_input s m st1 H1)
    as (st1' & Hrun1 & _ & Hn1 & He1 & _).
  destruct (projection_from_input s m st2 H2)
    as (st2' & Hrun2 & _ & Hn2 & He2 & _).
  exists st1', st2'. do 2 eexists. by split_and!.
Qed.

Lemma projection_deterministic_witness :
  projection_input caffeine caffeine_mol (prepared caffeine caffeine_mol) ∧
  projection_input caffeine caffeine_mol (busy caffeine caffeine_mol) ∧
  prepared caffeine caffeine_mol ≠ busy caffeine caffeine_mol ∧
  ∃ st1' st2' (tn te : table),
    runs_to cell_projection (prepared caffeine caffeine_mol) st1' ∧
    runs_to cell_projection (busy caffeine caffeine_mol) st2' ∧
    dict_of "nodes_dict" st1' = Some tn ∧
    dict_of "nodes_dict" st2' = Some tn ∧
    dict_of "edges_dict" st1' = Some te ∧
    dict_of "edges_dict" st2' = Some te.
Proof.
  assert (H1 : projection_input caffeine caffeine_mol
                 (prepared caffeine caffeine_mol)) by (by vm_compute).
  assert (H2 : projection_input caffeine caffeine_mol
                 (busy caffeine caffeine_mol)) by (by vm_compute).
  split; [exact H1|]. split; [exact H2|]. split; [discriminate|].
  exact (projection_deterministic caffeine caffeine_mol _ _ H1 H2).
Defined.

(** The first three cells bring any kernel into the state the projection
    cell expects. *)
Lemma setup_inr parse m st :
  parse caffeine = Some m →
  ∃ st0,
    runs_to (cell_data_model;; cell_smiles;; cell_parse parse) st st0 ∧
    projection_input caffeine m st0 ∧
    requests st0 = requests st.
Proof.
  intros Hp. eexists. split_and!.
  - eapply runs_to_seq; [reflexivity|].
    eapply runs_to_seq; [reflexivity|].
    unfold runs_to, cell_parse.
    erewrite bind_inr; [|apply read_str; cbn [vars]; apply lookup_insert_eq].
    rewrite Hp. reflexivity.
  - unfold projection_input. cbn [vars]. split_and!; by simplify_map_eq.
  - done.
Qed.

Lemma runs_to_then (p q r t : Py unit) st st0 st' :
  runs_to (p;; q;; r) st st0 →
  runs_to t st0 st' →
  runs_to (p;; q;; r;; t) st st'.
Proof.
  unfold runs_to, mbind, Py_bind.
  destruct (p st) as [e|[[] s1]]; [done|].
  destruct (q s1) as [e|[[] s2]]; [done|].
  intros Hr Ht. by rewrite Hr.
Qed.

(** C6. For the caffeine descriptor of the notebook, whose parsed molecule
    has 14 atoms and 15 bonds, running the cells from the data model to the
    projection in any kernel terminates normally and leaves 14 node records
    and 15 edge records: every list of [nodes_dict] has length 14 and every
    list of [edges_dict] has length 15. *)
Theorem caffeine_counts parse m st :
  parse caffeine = Some m →
  length (GetAtoms m) = 14 →
  length (GetBonds m) = 15 →
  ∃ st' (tn te : table),
    runs_to (notebook parse) st st' ∧
    dict_of "nodes_dict" st' = Some tn ∧
    dict_of "edges_dict" st' = Some te ∧
    dom tn = list_to_set (C := gset string) node_fields ∧
    dom te = list_to_set (C := gset string) edge_fields ∧
    (∀ k c, tn !! k = Some c → length c = 14) ∧
    (∀ k c, te !! k = Some c → length c = 15).
Proof.
  intros Hp HN HM.
  destruct (setup_inr parse m st Hp) as (st0 & Hrun0 & Hin & _).
  destruct (projection_from_input caffeine m st0 Hin)
    as (st' & Hrun & _ & Hn & He & _).
  exists st'. do 2 eexists.
  split_and!; [ | exact Hn | exact He | ..].
  - unfold notebook. by apply runs_to_then with st0.
  - by rewrite dom_grow, dom_nodes_dict_init.
  - by rewrite dom_grow, dom_edges_dict_init.
  - intros k c Hc. apply grown_nodes_lookup in Hc as [_ ->]. exact HN.
  - intros k c Hc. apply grown_edges_lookup in Hc as [_ ->]. exact HM.
Qed.

Lemma caffeine_counts_witness :
  parse_caffeine caffeine = Some caffeine_mol ∧
  length (GetAtoms caffeine_mol) = 14 ∧
  length (GetBonds caffeine_mol) = 15 ∧
  ∃ st' (tn te : table),
    runs_to (notebook parse_caffeine) (mkState ∅ []) st' ∧
    dict_of "nodes_dict" st' = Some tn ∧
    dict_of "edges_dict" st' = Some te ∧
    dom tn = list_to_set (C := gset string) node_fields ∧
    dom te = list_to_set (C := gset string) edge_fields ∧
    (∀ k c, tn !! k = Some c → length c = 14) ∧
    (∀ k c, te !! k = Some c → length c = 15).
Proof.
  split; [reflexivity|]. split; [reflexivity|]. split; [reflexivity|].
  exact (caffeine_counts parse_caffeine caffeine_mol (mkState ∅ [])
           eq_refl eq_refl eq_refl).
Defined.

(** C10. Rectangularity: from the freshly initialised dictionaries, after
    any number [i] of iterations of the atom loop, after the whole atom loop
    followed by any number [j] of iterations of the bond loop, and after the
    whole cell, [nodes_dict] holds its five fields with lists of one common
    length and [edges_dict] holds its four fields with lists of one common
    length. *)
Theorem tables_stay_rectangular s m st i j :
  projection_input s m st →
  (∃ st', runs_to (atom_loop (take i (GetAtoms m))) st st' ∧
          well_formed_tables st') ∧
  (∃ st', runs_to (atom_loop (GetAtoms m);;
                   bond_loop (take j (GetBonds m))) st st' ∧
          well_formed_tables st') ∧
  (∃ st', runs_to cell_projection st st' ∧ well_formed_tables st').
Proof.
  intros Hin. split_and!.
  - destruct (loops_from_input s m st (take i (GetAtoms m)) [] Hin)
      as (st1 & _ & Hrun & _ & Hn & He & _).
    exists st1. split; [exact Hrun|].
    apply well_formed_grown with s (take i (GetAtoms m))
      (@nil Bond); [exact Hn|].
    by rewrite He, grow_nil.
  - destruct (loops_from_input s m st (GetAtoms m)
                (take j (GetBonds m)) Hin)
      as (st1 & st2 & Hrun1 & Hrun2 & _ & _ & Hn & He).
    exists st2. split; [by apply runs_to_seq with st1|].
    by apply well_formed_grown with s (GetAtoms m) (take j (GetBonds m)).
  - destruct (projection_from_input s m st Hin)
      as (st' & Hrun & _ & Hn & He & _).
    exists st'. split; [exact Hrun|].
    by apply well_formed_grown with s (GetAtoms m) (GetBonds m).
Qed.

Lemma tables_stay_rectangular_witness :
  projection_input caffeine caffeine_mol (prepared caffeine caffeine_mol) ∧
  (∃ st', runs_to (atom_loop (take 3 (GetAtoms caffeine_mol)))
            (prepared caffeine caffeine_mol) st' ∧
          well_formed_tables st') ∧
  (∃ st', runs_to (atom_loop (GetAtoms caffeine_mol);;
                   bond_loop (take 7 (GetBonds caffeine_mol)))
            (prepared caffeine caffeine_mol) st' ∧
          well_formed_tables st') ∧
  (∃ st', runs_to cell_projection (prepared caffeine caffeine_mol) st' ∧
          well_formed_tables st').
Proof.
  assert (H : projection_input caffeine caffeine_mol
                (prepared caffeine caffeine_mol)) by (by vm_compute).
  split; [exact H|].
  exact (tables_stay_rectangular caffeine caffeine_mol _ 3 7 H).
Defined.

(** ** The data frames and the clean-up cell *)

Lemma dict_of_Some x st (d : table) :
  dict_of x st = Some d → vars st !! x = Some (VDict d).
Proof.
  unfold dict_of. destruct (vars st !! x) as [[]|]; congruence.
Qed.

(** Rectangular dictionaries are accepted by [from_dict]. *)
Lemma frames_inr st (tn te : table) :
  dict_of "nodes_dict" st = Some tn →
  dict_of "edges_dict" st = Some te →
  rectangular tn → rectangular te →
  runs_to cell_frames st
    {| vars := <["edges_df" := VFrame te]>
                 (<["nodes_df" := VFrame tn]> (vars st));
       requests := requests st |}.
Proof.
  intros Hn%dict_of_Some He%dict_of_Some Rn Re. unfold cell_frames.
  eapply runs_to_seq.
  - unfold runs_to. rewrite (bind_inr _ _ _ _ _ (read_dict _ _ _ Hn)).
    unfold from_dict. rewrite decide_True by done. reflexivity.
  - unfold runs_to. erewrite bind_inr; cycle 1.
    { apply read_dict. cbn [vars]. rewrite lookup_insert_ne by done.
      exact He. }
    unfold from_dict. rewrite decide_True by done. reflexivity.
Qed.

(** The clean-up loop sends one request per identifier, in order. *)
Lemma cleanup_loop_inr host port ids : ∀ st,
  vars st !! "client" = Some (VClient host port) →
  runs_to (for_in "i" (VScalar <$> (SStr <$> ids)) cleanup_body) st
    {| vars := rebind "i" (VScalar <$> (SStr <$> ids)) (vars st);
       requests := requests st ++ (drop_query <$> ids) |}.
Proof.
  induction ids as [|i ids IH]; intros st Hc.
  - destruct st as [g r]. unfold runs_to, rebind. simpl.
    by rewrite app_nil_r.
  - rewrite !fmap_cons. cbn [for_in].
    eapply runs_to_seq; [reflexivity|].
    eapply runs_to_seq.
    { unfold runs_to, cleanup_body.
      erewrite bind_inr; cycle 1.
      { apply name_inr. cbn [vars]. rewrite lookup_insert_ne by done.
        exact Hc. }
      erewrite bind_inr; cycle 1.
      { apply read_str. cbn [vars]. apply lookup_insert_eq. }
      reflexivity. }
    eapply runs_to_eq.
    { apply IH. cbn [vars]. by rewrite lookup_insert_ne. }
    cbn [vars requests]. f_equal.
    + unfold rebind. rewrite last_cons.
      destruct (last (VScalar <$> (SStr <$> ids))); [|done].
      by rewrite insert_insert_eq.
    + by rewrite <- app_assoc.
Qed.

Lemma cleanup_inr st (f : table) ids host port :
  vars st !! "nodes_df" = Some (VFrame f) →
  f !! "~id" = Some (SStr <$> ids) →
  vars st !! "client" = Some (VClient host port) →
  runs_to cell_cleanup st
    {| vars := rebind "i" (VScalar <$> (SStr <$> ids)) (vars st);
       requests := requests st ++ (drop_query <$> ids) |}.
Proof.
  intros Hf Hid Hc. unfold runs_to, cell_cleanup.
  erewrite bind_inr; cycle 1.
  { erewrite bind_inr; cycle 1.
    { rewrite (bind_inr _ _ _ _ _ (name_inr _ _ _ Hf)). reflexivity. }
    unfold subscript. rewrite Hid. reflexivity. }
  by apply cleanup_loop_inr with host port.
Qed.

(** C7. After the projection, the data-frame cell and the connection cell,
    the clean-up cell terminates normally and sends, for the identifiers
    [ids] of the [~id] column of [nodes_df], exactly one request per
    identifier, in the order of the column and after what had been sent
    before; the request for the identifier [i] is the text
    [g.V().has('~id', 'i').drop();] with [i] put in as it is.  There are as
    many as atoms, and no identifier of the [~id] column of [edges_df] is
    the key of any of these requests. *)
Theorem cleanup_one_request_per_node s m host st :
  projection_input s m st →
  ∃ st1 st2 ids eids,
    runs_to (cell_projection;; cell_frames;; cell_connect host) st st1 ∧
    frame_column "nodes_df" "~id" st1 = Some (SStr <$> ids) ∧
    frame_column "edges_df" "~id" st1 = Some (SStr <$> eids) ∧
    length ids = length (GetAtoms m) ∧
    runs_to cell_cleanup st1 st2 ∧
    requests st2
      = requests st1
        ++ ((λ i, ("g.V().has('~id', '" +:+ i) +:+ "').drop();") <$> ids) ∧
    (∀ e, e ∈ eids →
       ("g.V().has('~id', '" +:+ e) +:+ "').drop();"
       ∉ (λ i, ("g.V().has('~id', '" +:+ i) +:+ "').drop();") <$> ids).
Proof.
  intros Hin.
  destruct (projection_from_input s m st Hin)
    as (st0 & Hrun & _ & Hn & He & _).
  pose proof (frames_inr st0 _ _ Hn He (rectangular_grown_nodes _ _)
                (rectangular_grown_edges _ _)) as Hfr.
  set (tn := grow (λ k, a ← GetAtoms m; atom_cells s a k) nodes_dict_init) in *.
  set (te := grow (λ k, b ← GetBonds m; bond_cells s b k) edges_dict_init) in *.
  set (ids := (λ a, node_id s (GetIdx a)) <$> GetAtoms m).
  set (eids := (λ b, edge_id s (GetBeginAtomIdx b) (GetEndAtomIdx b))
                 <$> GetBonds m).
  assert (Hids : tn !! "~id" = Some (SStr <$> ids)).
  { unfold ids. rewrite <- list_fmap_compose.
    apply node_column; [by repeat constructor | done]. }
  assert (Heids : te !! "~id" = Some (SStr <$> eids)).
  { unfold eids. rewrite <- list_fmap_compose.
    apply edge_column; [by repeat constructor | done]. }
  eexists. eexists. exists ids, eids. split_and!.
  - eapply runs_to_seq; [exact Hrun|].
    eapply runs_to_seq; [exact Hfr|]. reflexivity.
  - unfold frame_column, frame_of. cbn [vars].
    rewrite lookup_insert_ne, lookup_insert_ne, lookup_insert_eq by done.
    exact Hids.
  - unfold frame_column, frame_of. cbn [vars].
    rewrite lookup_insert_ne, lookup_insert_eq by done.
    exact Heids.
  - unfold ids. by rewrite length_fmap.
  - eapply cleanup_inr with (f := tn) (host := host); cbn [vars].
    + by rewrite lookup_insert_ne, lookup_insert_ne, lookup_insert_eq.
    + exact Hids.
    + by rewrite lookup_insert_eq.
  - reflexivity.
  - intros e (b & -> & _)%list_elem_of_fmap
      (i & Ei%drop_query_inj & (a & -> & _)%list_elem_of_fmap)%list_elem_of_fmap.
    by apply edge_id_not_node_id in Ei.
Qed.

Lemma cleanup_one_request_per_node_witness :
  projection_input "CCO" ethanol_mol (prepared "CCO" ethanol_mol) ∧
  ∃ st1 st2 ids eids,
    runs_to (cell_projection;; cell_frames;; cell_connect "localhost")
      (prepared "CCO" ethanol_mol) st1 ∧
    frame_column "nodes_df" "~id" st1 = Some (SStr <$> ids) ∧
    frame_column "edges_df" "~id" st1 = Some (SStr <$> eids) ∧
    length ids = length (GetAtoms ethanol_mol) ∧
    runs_to cell_cleanup st1 st2 ∧
    requests st2
      = requests st1
        ++ ((λ i, ("g.V().has('~id', '" +:+ i) +:+ "').drop();") <$> ids) ∧
    (∀ e, e ∈ eids →
       ("g.V().has('~id', '" +:+ e) +:+ "').drop();"
       ∉ (λ i, ("g.V().has('~id', '" +:+ i) +:+ "').drop();") <$> ids).
Proof.
  assert (H : projection_input "CCO" ethanol_mol
                (prepared "CCO" ethanol_mol)) by (by vm_compute).
  split; [exact H|].
  exact (cleanup_one_request_per_node "CCO" ethanol_mol "localhost" _ H).
Defined.

(** ** The frame of the projection cell *)

(** C8, as stated, fails: the cell also rebinds its two loop targets.  In
    the kernel [prepared "CCO" ethanol_mol] the name [atom] is unbound
    before the cell runs and bound to the last atom afterwards, so it is not
    true that everything outside the two dictionaries is unchanged. *)
Lemma loop_targets_are_rebound :
  projection_input "CCO" ethanol_mol (prepared "CCO" ethanol_mol) ∧
  ∃ st',
    runs_to cell_projection (prepared "CCO" ethanol_mol) st' ∧
    vars (prepared "CCO" ethanol_mol) !! "atom" = None ∧
    vars st' !! "atom" = Some (VAtom (mkAtom 2 "O" 8 false)) ∧
    ¬ unchanged_outside ["nodes_dict"; "edges_dict"]
        (prepared "CCO" ethanol_mol) st'.
Proof.
  assert (H : projection_input "CCO" ethanol_mol
                (prepared "CCO" ethanol_mol)) by (by vm_compute).
  split; [exact H|].
  destruct (projection_from_input _ _ _ H) as (st' & Hrun & _ & _ & _ & Ha & _).
  exists st'. split_and!; [exact Hrun | done | exact Ha |].
  intros [_ Hframe].
  assert (Hout : "atom" ∉ ["nodes_dict"; "edges_dict"]).
  { rewrite !not_elem_of_cons. split_and!; [done | done | apply not_elem_of_nil]. }
  specialize (Hframe "atom" Hout). rewrite Ha in Hframe. discriminate.
Qed.

(** C8, amended. The projection cell sends nothing to the remote store and
    changes no global name other than the two dictionaries and its two loop
    targets; the molecule and the descriptor are as before.  The target
    [atom] ends bound to the last atom when the molecule has an atom and is
    left as it was when it has none, and likewise [bond] for the bonds. *)
Theorem projection_frame s m st :
  projection_input s m st →
  ∃ st',
    runs_to cell_projection st st' ∧
    unchanged_outside ["nodes_dict"; "edges_dict"; "atom"; "bond"] st st' ∧
    vars st' !! "mol" = Some (VMol m) ∧
    vars st' !! "caffeine_smiles" = Some (VStr s) ∧
    vars st' !! "atom"
      = match last (GetAtoms m) with
        | Some a => Some (VAtom a)
        | None => vars st !! "atom"
        end ∧
    vars st' !! "bond"
      = match last (GetBonds m) with
        | Some b => Some (VBond b)
        | None => vars st !! "bond"
        end.
Proof.
  intros Hin.
  destruct (projection_from_input s m st Hin)
    as (st' & Hrun & Hreq & _ & _ & Hatom & Hbond & Hframe).
  destruct Hin as (Hs & Hm & _).
  exists st'. split_and!; [exact Hrun | by split | | | |].
  - rewrite Hframe; [exact Hm|].
    rewrite !not_elem_of_cons. split_and!; done || apply not_elem_of_nil.
  - rewrite Hframe; [exact Hs|].
    rewrite !not_elem_of_cons. split_and!; done || apply not_elem_of_nil.
  - rewrite Hatom. by destruct (last (GetAtoms m)).
  - rewrite Hbond. by destruct (last (GetBonds m)).
Qed.

Lemma projection_frame_witness :
  projection_input caffeine caffeine_mol (busy caffeine caffeine_mol) ∧
  ∃ st',
    runs_to cell_projection (busy caffeine caffeine_mol) st' ∧
    unchanged_outside ["nodes_dict"; "edges_dict"; "atom"; "bond"]
      (busy caffeine caffeine_mol) st' ∧
    vars st' !! "mol" = Some (VMol caffeine_mol) ∧
    vars st' !! "caffeine_smiles" = Some (VStr caffeine) ∧
    vars st' !! "atom"
      = match last (GetAtoms caffeine_mol) with
        | Some a => Some (VAtom a)
        | None => vars (busy caffeine caffeine_mol) !! "atom"
        end ∧
    vars st' !! "bond"
      = match last (GetBonds caffeine_mol) with
        | Some b => Some (VBond b)
        | None => vars (busy caffeine caffeine_mol) !! "bond"
        end.
Proof.
  assert (H : projection_input caffeine caffeine_mol
                (busy caffeine caffeine_mol)) by (by vm_compute).
  split; [exact H|].
  exact (projection_frame caffeine caffeine_mol _ H).
Defined.

(** ** Edge identifiers *)

Lemma NoDup_edge_ids_digits s bonds :
  (∀ b, b ∈ bonds → GetBeginAtomIdx b < 10 ∧ GetEndAtomIdx b < 10) →
  NoDup (endpoints <$> bonds) →
  NoDup ((λ b, SStr (edge_id s (GetBeginAtomIdx b) (GetEndAtomIdx b)))
           <$> bonds).
Proof.
  intros Hdig Hnd.
  induction bonds as [|b bonds IH]; [constructor|].
  rewrite fmap_cons in Hnd. apply NoDup_cons in Hnd as [Hb Hnd].
  rewrite fmap_cons. apply NoDup_cons. split.
  - intros (b' & E & Hb')%list_elem_of_fmap. apply Hb.
    destruct (Hdig b) as [? ?]; [by left|].
    destruct (Hdig b') as [? ?]; [by right|].
    assert (edge_id s (GetBeginAtomIdx b) (GetEndAtomIdx b)
            = edge_id s (GetBeginAtomIdx b') (GetEndAtomIdx b')) as E'
      by congruence.
    apply edge_id_inj_digits in E' as [E1 E2]; [|done..].
    apply list_elem_of_fmap. exists b'. split; [|done].
    unfold endpoints. by rewrite E1, E2.
  - apply IH; [|done]. intros b' Hb'. apply Hdig. by right.
Qed.

(** C9. For a molecule all of whose atom indices are single decimal digits,
    whose bonds join atoms of the molecule, and whose bonds have pairwise
    distinct (begin, end) pairs, the [~id] cells of [edges_dict] after the
    projection are pairwise distinct. *)
Theorem edge_ids_distinct s m st :
  projection_input s m st →
  (∀ a, a ∈ GetAtoms m → GetIdx a < 10) →
  bonds_in_range m →
  NoDup (endpoints <$> GetBonds m) →
  ∃ st' ids,
    runs_to cell_projection st st' ∧
    column "edges_dict" "~id" st' = Some ids ∧
    NoDup ids.
Proof.
  intros Hin Hdig Hrange Hnd.
  destruct (projection_from_input s m st Hin)
    as (st' & Hrun & _ & _ & He & _).
  exists st'. eexists. unfold column. rewrite He. cbn [mbind option_bind].
  split_and!; [exact Hrun | |].
  - apply edge_column
      with (f := λ b, SStr (edge_id s (GetBeginAtomIdx b) (GetEndAtomIdx b)));
      [by repeat constructor | done].
  - apply NoDup_edge_ids_digits; [|done].
    intros b Hb. destruct (Hrange b Hb)
      as [(a1 & -> & Ha1)%list_elem_of_fmap (a2 & -> & Ha2)%list_elem_of_fmap].
    split; by apply Hdig.
Qed.

Lemma edge_ids_distinct_witness :
  projection_input "CCO" ethanol_mol (prepared "CCO" ethanol_mol) ∧
  (∀ a, a ∈ GetAtoms ethanol_mol → GetIdx a < 10) ∧
  bonds_in_range ethanol_mol ∧
  NoDup (endpoints <$> GetBonds ethanol_mol) ∧
  ∃ st' ids,
    runs_to cell_projection (prepared "CCO" ethanol_mol) st' ∧
    column "edges_dict" "~id" st' = Some ids ∧
    NoDup ids.
Proof.
  assert (H : projection_input "CCO" ethanol_mol
                (prepared "CCO" ethanol_mol)) by (by vm_compute).
  assert (D : ∀ a, a ∈ GetAtoms ethanol_mol → GetIdx a < 10).
  { intros a Ha. apply list_elem_of_In in Ha. simpl in Ha.
    intuition (subst; simpl; lia). }
  assert (R : bonds_in_range ethanol_mol).
  { intros b Hb. apply list_elem_of_In in Hb. rewrite !list_elem_of_In.
    simpl in Hb. simpl. intuition (subst; simpl; tauto). }
  assert (N : NoDup (endpoints <$> GetBonds ethanol_mol)).
  { apply (bool_decide_unpack _). by vm_compute. }
  split; [exact H|]. split; [exact D|]. split; [exact R|]. split; [exact N|].
  exact (edge_ids_distinct "CCO" ethanol_mol _ H D R N).
Defined.

(** Beyond single digits the construction does collide: in the molecule
    [cyclodecyl_mol] the bond from atom 1 to atom 12 and the ring closure
    from atom 11 to atom 2 are different bonds with the same identifier. *)
Lemma edge_ids_collide_beyond_digits :
  bonds_in_range cyclodecyl_mol ∧
  NoDup (endpoints <$> GetBonds cyclodecyl_mol) ∧
  ∃ st' ids,
    runs_to cell_projection (prepared cyclodecyl cyclodecyl_mol) st' ∧
    column "edges_dict" "~id" st' = Some ids ∧
    ids !! 11 = Some (SStr "edge-CC(C1CCCCCCCCC1)C112") ∧
    ids !! 12 = Some (SStr "edge-CC(C1CCCCCCCCC1)C112") ∧
    ¬ NoDup ids.
Proof.
  split_and!.
  - intros b Hb. apply list_elem_of_In in Hb. rewrite !list_elem_of_In.
    simpl in Hb. simpl. intuition (subst; simpl; tauto).
  - apply (bool_decide_unpack _). by vm_compute.
  - assert (H : projection_input cyclodecyl cyclodecyl_mol
                  (prepared cyclodecyl cyclodecyl_mol)) by (by vm_compute).
    destruct (projection_from_input _ _ _ H)
      as (st' & Hrun & _ & _ & He & _).
    exists st'. eexists. unfold column. rewrite He. cbn [mbind option_bind].
    split_and!; [exact Hrun | | | |].
    + apply edge_column
        with (f := λ b, SStr (edge_id cyclodecyl (GetBeginAtomIdx b)
                                (GetEndAtomIdx b)));
        [by repeat constructor | done].
    + by vm_compute.
    + by vm_compute.
    + intros Hnd.
      assert (11 = 12) as Habs; [|discriminate Habs].
      by apply (proj1 (NoDup_alt _) Hnd 11 12
                  (SStr "edge-CC(C1CCCCCCCCC1)C112")).
Qed.

(** X5. The dictionaries are shared and mutated in place: a second run of the
    cell in the same kernel, without the data model cell in between,
    doubles every list. *)
Lemma projection_rerun_doubles s m st :
  projection_input s m st →
  ∃ st' (tn te : table),
    runs_to (cell_projection;; cell_projection) st st' ∧
    dict_of "nodes_dict" st' = Some tn ∧
    dict_of "edges_dict" st' = Some te ∧
    (∀ k c, tn !! k = Some c → length c = 2 * length (GetAtoms m)) ∧
    (∀ k c, te !! k = Some c → length c = 2 * length (GetBonds m)).
Proof.
  intros Hin.
  destruct (projection_from_input s m st Hin)
    as (st1 & Hrun1 & _ & Hn%dict_of_Some & He%dict_of_Some & _ & _ & Hframe).
  destruct Hin as (Hs & Hm & _).
  assert (Hout : ∀ y, y = "mol" ∨ y = "caffeine_smiles" →
            y ∉ ["nodes_dict"; "edges_dict"; "atom"; "bond"]).
  { intros y [-> | ->]; rewrite !not_elem_of_cons;
      split_and!; done || apply not_elem_of_nil. }
  eexists. do 2 eexists. split_and!.
  - eapply runs_to_seq; [exact Hrun1|].
    eapply projection_inr with (s := s) (m := m); [ | | exact Hn | exact He | |].
    + rewrite Hframe by auto. exact Hs.
    + rewrite Hframe by auto. exact Hm.
    + intros k Hk. by apply grow_is_Some, init_node_fields.
    + intros k Hk. by apply grow_is_Some, init_edge_fields.
  - unfold dict_of. cbn [vars].
    by rewrite lookup_insert_ne, lookup_rebind_ne, lookup_insert_eq.
  - unfold dict_of. cbn [vars]. by rewrite lookup_insert_eq.
  - intros k c. rewrite lookup_grow.
    destruct (grow _ nodes_dict_init !! k) as [c0|] eqn:E0; [|done].
    apply grown_nodes_lookup in E0 as [Hk E0].
    destruct (atom_cells_single s k Hk) as [f Hf].
    rewrite (bind_cells _ f) by done. intros [= <-].
    rewrite length_app, length_fmap. lia.
  - intros k c. rewrite lookup_grow.
    destruct (grow _ edges_dict_init !! k) as [c0|] eqn:E0; [|done].
    apply grown_edges_lookup in E0 as [Hk E0].
    destruct (bond_cells_single s k Hk) as [f Hf].
    rewrite (bind_cells _ f) by done. intros [= <-].
    rewrite length_app, length_fmap. lia.
Qed.

(** * Further properties of the cells *)

(** ** What the tables hold *)

(** X1. After the projection the five lists of [nodes_dict] hold, atom by
    atom and in the order of the molecule, the node identifier, the element
    symbol, the atom index, the atomic number and the aromaticity flag: row
    [i] of the node table describes the [i]-th atom. *)
Theorem node_table_contents s m st :
  projection_input s m st →
  ∃ st',
    runs_to cell_projection st st' ∧
    column "nodes_dict" "~id" st'
      = Some ((λ a, SStr (node_id s (GetIdx a))) <$> GetAtoms m) ∧
    column "nodes_dict" "~label" st'
      = Some ((λ a, SStr (GetSymbol a)) <$> GetAtoms m) ∧
    column "nodes_dict" "idx" st'
      = Some ((λ a, SInt (GetIdx a)) <$> GetAtoms m) ∧
    column "nodes_dict" "atomicNumber" st'
      = Some ((λ a, SInt (GetAtomicNum a)) <$> GetAtoms m) ∧
    column "nodes_dict" "isAromatic" st'
      = Some ((λ a, SBool (GetIsAromatic a)) <$> GetAtoms m).
Proof.
  intros Hin.
  destruct (projection_from_input s m st Hin)
    as (st' & Hrun & _ & Hn & _).
  exists st'. unfold column. rewrite Hn. cbn [mbind option_bind].
  split_and!; [exact Hrun | ..];
    (apply node_column; [by repeat constructor | done]).
Qed.

Lemma node_table_contents_witness :
  projection_input caffeine caffeine_mol (prepared caffeine caffeine_mol) ∧
  ∃ st',
    runs_to cell_projection (prepared caffeine caffeine_mol) st' ∧
    column "nodes_dict" "~id" st'
      = Some ((λ a, SStr (node_id caffeine (GetIdx a)))
                <$> GetAtoms caffeine_mol) ∧
    column "nodes_dict" "~label" st'
      = Some ((λ a, SStr (GetSymbol a)) <$> GetAtoms caffeine_mol) ∧
    column "nodes_dict" "idx" st'
      = Some ((λ a, SInt (GetIdx a)) <$> GetAtoms caffeine_mol) ∧
    column "nodes_dict" "atomicNumber" st'
      = Some ((λ a, SInt (GetAtomicNum a)) <$> GetAtoms caffeine_mol) ∧
    column "nodes_dict" "isAromatic" st'
      = Some ((λ a, SBool (GetIsAromatic a)) <$> GetAtoms caffeine_mol).
Proof.
  assert (H : projection_input caffeine caffeine_mol
                (prepared caffeine caffeine_mol)) by (by vm_compute).
  split; [exact H|].
  exact (node_table_contents caffeine caffeine_mol _ H).
Defined.

(** X2. After the projection the four lists of [edges_dict] hold, bond by
    bond and in the order of the molecule, the edge identifier, the name of
    the bond type, and the node identifiers built from the begin and from
    the end atom index. *)
Theorem edge_table_contents s m st :
  projection_input s m st →
  ∃ st',
    runs_to cell_projection st st' ∧
    column "edges_dict" "~id" st'
      = Some ((λ b, SStr (edge_id s (GetBeginAtomIdx b) (GetEndAtomIdx b)))
                <$> GetBonds m) ∧
    column "edges_dict" "~label" st'
      = Some ((λ b, SStr (str_BondType (GetBondType b))) <$> GetBonds m) ∧
    column "edges_dict" "~from" st'
      = Some ((λ b, SStr (node_id s (GetBeginAtomIdx b))) <$> GetBonds m) ∧
    column "edges_dict" "~to" st'
      = Some ((λ b, SStr (node_id s (GetEndAtomIdx b))) <$> GetBonds m).
Proof.
  intros Hin.
  destruct (projection_from_input s m st Hin)
    as (st' & Hrun & _ & _ & He & _).
  exists st'. unfold column. rewrite He. cbn [mbind option_bind].
  split_and!; [exact Hrun | ..];
    (apply edge_column; [by repeat constructor | done]).
Qed.

Lemma edge_table_contents_witness :
  projection_input caffeine caffeine_mol (prepared caffeine caffeine_mol) ∧
  ∃ st',
    runs_to cell_projection (prepared caffeine caffeine_mol) st' ∧
    column "edges_dict" "~id" st'
      = Some ((λ b, SStr (edge_id caffeine (GetBeginAtomIdx b)
                            (GetEndAtomIdx b))) <$> GetBonds caffeine_mol) ∧
    column "edges_dict" "~label" st'
      = Some ((λ b, SStr (str_BondType (GetBondType b)))
                <$> GetBonds caffeine_mol) ∧
    column "edges_dict" "~from" st'
      = Some ((λ b, SStr (node_id caffeine (GetBeginAtomIdx b)))
                <$> GetBonds caffeine_mol) ∧
    column "edges_dict" "~to" st'
      = Some ((λ b, SStr (node_id caffeine (GetEndAtomIdx b)))
                <$> GetBonds caffeine_mol).
Proof.
  assert (H : projection_input caffeine caffeine_mol
                (prepared caffeine caffeine_mol)) by (by vm_compute).
  split; [exact H|].
  exact (edge_table_contents caffeine caffeine_mol _ H).
Defined.

(** X3. Row alignment: when the atoms are numbered by position and every
    bond joins atoms of the molecule, the [~from] cell of the [i]-th edge
    row is the [~id] cell of the node row at the bond's begin index, and its
    [~to] cell is the [~id] cell of the node row at the bond's end index. *)
Theorem edge_rows_point_at_node_rows s m st :
  projection_input s m st →
  indexed_by_position m →
  bonds_in_range m →
  ∃ st' ids froms tos,
    runs_to cell_projection st st' ∧
    column "nodes_dict" "~id" st' = Some ids ∧
    column "edges_dict" "~from" st' = Some froms ∧
    column "edges_dict" "~to" st' = Some tos ∧
    ∀ i b, GetBonds m !! i = Some b →
      ∃ f t, froms !! i = Some f ∧ tos !! i = Some t ∧
             ids !! GetBeginAtomIdx b = Some f ∧
             ids !! GetEndAtomIdx b = Some t.
Proof.
  intros Hin Hpos Hrange.
  destruct (projection_from_input s m st Hin)
    as (st' & Hrun & _ & Hn & He & _).
  exists st'. do 3 eexists. unfold column. rewrite Hn, He.
  cbn [mbind option_bind].
  split_and!; [exact Hrun | | | |].
  - apply node_column with (f := λ a, SStr (node_id s (GetIdx a)));
      [by repeat constructor | done].
  - apply edge_column with (f := λ b, SStr (node_id s (GetBeginAtomIdx b)));
      [by repeat constructor | done].
  - apply edge_column with (f := λ b, SStr (node_id s (GetEndAtomIdx b)));
      [by repeat constructor | done].
  - intros i b Hb.
    assert (∀ n, n ∈ GetIdx <$> GetAtoms m →
              ((λ a, SStr (node_id s (GetIdx a))) <$> GetAtoms m) !! n
              = Some (SStr (node_id s n))) as Hrow.
    { intros n (a & -> & Ha)%list_elem_of_fmap.
      apply list_elem_of_lookup in Ha as [k Hk].
      pose proof (Hpos k a Hk) as E. rewrite E.
      rewrite list_lookup_fmap, Hk. simpl. by rewrite E. }
    destruct (Hrange b) as [Hbeg Hend].
    { apply list_elem_of_lookup. by exists i. }
    exists (SStr (node_id s (GetBeginAtomIdx b))),
      (SStr (node_id s (GetEndAtomIdx b))).
    split_and!; [| | by apply Hrow | by apply Hrow];
      by rewrite list_lookup_fmap, Hb.
Qed.

Lemma caffeine_indexed_by_position : indexed_by_position caffeine_mol.
Proof.
  intros k a Hk. simpl in Hk.
  do 14 (destruct k as [|k]; [by injection Hk as <-|]). done.
Qed.

Lemma caffeine_bonds_in_range : bonds_in_range caffeine_mol.
Proof.
  intros b Hb. apply list_elem_of_In in Hb. rewrite !list_elem_of_In.
  simpl in Hb. simpl. intuition (subst; simpl; tauto).
Qed.

Lemma edge_rows_point_at_node_rows_witness :
  projection_input caffeine caffeine_mol (prepared caffeine caffeine_mol) ∧
  indexed_by_position caffeine_mol ∧
  bonds_in_range caffeine_mol ∧
  ∃ st' ids froms tos,
    runs_to cell_projection (prepared caffeine caffeine_mol) st' ∧
    column "nodes_dict" "~id" st' = Some ids ∧
    column "edges_dict" "~from" st' = Some froms ∧
    column "edges_dict" "~to" st' = Some tos ∧
    ∀ i b, GetBonds caffeine_mol !! i = Some b →
      ∃ f t, froms !! i = Some f ∧ tos !! i = Some t ∧
             ids !! GetBeginAtomIdx b = Some f ∧
             ids !! GetEndAtomIdx b = Some t.
Proof.
  assert (H : projection_input caffeine caffeine_mol
                (prepared caffeine caffeine_mol)) by (by vm_compute).
  split; [exact H|]. split; [exact caffeine_indexed_by_position|].
  split; [exact caffeine_bonds_in_range|].
  exact (edge_rows_point_at_node_rows caffeine caffeine_mol _ H
           caffeine_indexed_by_position caffeine_bonds_in_range).
Defined.

(** ** Running the projection on dictionaries that are not fresh *)

Lemma atom_cells_other s a k : k ∉ node_fields → atom_cells s a k = [].
Proof.
  unfold node_fields. rewrite !not_elem_of_cons. intros (? & ? & ? & ? & ? & _).
  unfold atom_cells. by rewrite !decide_False.
Qed.

Lemma bond_cells_other s b k : k ∉ edge_fields → bond_cells s b k = [].
Proof.
  unfold edge_fields. rewrite !not_elem_of_cons. intros (? & ? & ? & ? & _).
  unfold bond_cells. by rewrite !decide_False.
Qed.

Lemma bind_nil_cells {A} (cells : A → string → list scalar) k (items : list A) :
  (∀ a, cells a k = []) → (a ← items; cells a k) = [].
Proof.
  intros E. induction items as [|a items IH]; [done|].
  by rewrite bind_cons, E, IH.
Qed.

Lemma length_atom_cells s atoms k :
  length (a ← atoms; atom_cells s a k)
  = if decide (k ∈ node_fields) then length atoms else 0.
Proof.
  case_decide as Hk.
  - destruct (atom_cells_single s k Hk) as [f Hf].
    by rewrite (bind_cells _ f), length_fmap.
  - by rewrite bind_nil_cells by auto using atom_cells_other.
Qed.

Lemma length_bond_cells s bonds k :
  length (b ← bonds; bond_cells s b k)
  = if decide (k ∈ edge_fields) then length bonds else 0.
Proof.
  case_decide as Hk.
  - destruct (bond_cells_single s k Hk) as [f Hf].
    by rewrite (bind_cells _ f), length_fmap.
  - by rewrite bind_nil_cells by auto using bond_cells_other.
Qed.

(** X4. The projection only appends.  Run on any dictionaries that have the
    fields of the data model, whatever they already hold, it terminates
    normally, keeps the fields of both dictionaries, and leaves every list
    with its old content as a prefix: the lists of the data model's fields
    gain one cell per atom (per bond), any other list gains none. *)
Theorem projection_appends s m st (tn te : table) :
  vars st !! "caffeine_smiles" = Some (VStr s) →
  vars st !! "mol" = Some (VMol m) →
  vars st !! "nodes_dict" = Some (VDict tn) →
  vars st !! "edges_dict" = Some (VDict te) →
  (∀ k, k ∈ node_fields → is_Some (tn !! k)) →
  (∀ k, k ∈ edge_fields → is_Some (te !! k)) →
  ∃ st' (tn' te' : table),
    runs_to cell_projection st st' ∧
    dict_of "nodes_dict" st' = Some tn' ∧
    dict_of "edges_dict" st' = Some te' ∧
    dom tn' = dom tn ∧ dom te' = dom te ∧
    (∀ k c, tn !! k = Some c →
       ∃ new, tn' !! k = Some (c ++ new) ∧
         length new = if decide (k ∈ node_fields)
                      then length (GetAtoms m) else 0) ∧
    (∀ k c, te !! k = Some c →
       ∃ new, te' !! k = Some (c ++ new) ∧
         length new = if decide (k ∈ edge_fields)
                      then length (GetBonds m) else 0).
Proof.
  intros Hs Hm Hn He Hfn Hfe.
  pose proof (projection_inr s m st tn te Hs Hm Hn He Hfn Hfe) as Hrun.
  eexists. do 2 eexists. split_and!; [exact Hrun | ..].
  - unfold dict_of. cbn [vars].
    by rewrite lookup_insert_ne, lookup_rebind_ne, lookup_insert_eq.
  - unfold dict_of. cbn [vars]. by rewrite lookup_insert_eq.
  - apply dom_grow.
  - apply dom_grow.
  - intros k c Hc. eexists. rewrite lookup_grow, Hc. split; [done|].
    apply length_atom_cells.
  - intros k c Hc. eexists. rewrite lookup_grow, Hc. split; [done|].
    apply length_bond_cells.
Qed.

Lemma charge_has_node_fields k :
  k ∈ node_fields → is_Some (nodes_dict_charge !! k).
Proof.
  intros Hk. unfold nodes_dict_charge.
  destruct (decide ("charge" = k)) as [<-|Hne].
  - rewrite lookup_insert_eq. by eexists.
  - rewrite lookup_insert_ne by done. by apply init_node_fields.
Qed.

Lemma projection_appends_witness :
  ∃ st' (tn' te' : table),
    runs_to cell_projection
      (prepared_with nodes_dict_charge caffeine caffeine_mol) st' ∧
    dict_of "nodes_dict" st' = Some tn' ∧
    dict_of "edges_dict" st' = Some te' ∧
    dom tn' = dom nodes_dict_charge ∧ dom te' = dom edges_dict_init ∧
    (∀ k c, nodes_dict_charge !! k = Some c →
       ∃ new, tn' !! k = Some (c ++ new) ∧
         length new = if decide (k ∈ node_fields)
                      then length (GetAtoms caffeine_mol) else 0) ∧
    (∀ k c, edges_dict_init !! k = Some c →
       ∃ new, te' !! k = Some (c ++ new) ∧
         length new = if decide (k ∈ edge_fields)
                      then length (GetBonds caffeine_mol) else 0).
Proof.
  apply (projection_appends caffeine caffeine_mol
           (prepared_with nodes_dict_charge caffeine caffeine_mol)
           nodes_dict_charge edges_dict_init).
  - by vm_compute.
  - by vm_compute.
  - by vm_compute.
  - by vm_compute.
  - exact charge_has_node_fields.
  - exact init_edge_fields.
Defined.

Lemma projection_rerun_doubles_witness :
  projection_input caffeine caffeine_mol (prepared caffeine caffeine_mol) ∧
  ∃ st' (tn te : table),
    runs_to (cell_projection;; cell_projection)
      (prepared caffeine caffeine_mol) st' ∧
    dict_of "nodes_dict" st' = Some tn ∧
    dict_of "edges_dict" st' = Some te ∧
    (∀ k c, tn !! k = Some c → length c = 2 * length (GetAtoms caffeine_mol)) ∧
    (∀ k c, te !! k = Some c → length c = 2 * length (GetBonds caffeine_mol)).
Proof.
  assert (H : projection_input caffeine caffeine_mol
                (prepared caffeine caffeine_mol)) by (by vm_compute).
  split; [exact H|].
  exact (projection_rerun_doubles caffeine caffeine_mol _ H).
Defined.

(** X6. Running the data model cell again resets the tables: in any kernel
    where the descriptor and the molecule are bound, whatever the two
    dictionaries hold or whether they exist at all, the data model cell
    followed by the projection cell leaves exactly N node records and M edge
    records. *)
Theorem data_model_resets s m st :
  vars st !! "caffeine_smiles" = Some (VStr s) →
  vars st !! "mol" = Some (VMol m) →
  ∃ st' (tn te : table),
    runs_to (cell_data_model;; cell_projection) st st' ∧
    dict_of "nodes_dict" st' = Some tn ∧
    dict_of "edges_dict" st' = Some te ∧
    dom tn = list_to_set (C := gset string) node_fields ∧
    dom te = list_to_set (C := gset string) edge_fields ∧
    (∀ k c, tn !! k = Some c → length c = length (GetAtoms m)) ∧
    (∀ k c, te !! k = Some c → length c = length (GetBonds m)).
Proof.
  intros Hs Hm.
  set (st0 := {| vars := <["edges_dict" := VDict edges_dict_init]>
                   (<["nodes_dict" := VDict nodes_dict_init]> (vars st));
                 requests := requests st |}).
  assert (Hin : projection_input s m st0).
  { unfold projection_input, st0. cbn [vars]. split_and!; by simplify_map_eq. }
  destruct (projection_from_input s m st0 Hin)
    as (st' & Hrun & _ & Hn & He & _).
  exists st'. do 2 eexists. split_and!; [ | exact Hn | exact He | ..].
  - eapply runs_to_seq; [|exact Hrun]. reflexivity.
  - by rewrite dom_grow, dom_nodes_dict_init.
  - by rewrite dom_grow, dom_edges_dict_init.
  - intros k c Hc. by apply grown_nodes_lookup in Hc as [_ ?].
  - intros k c Hc. by apply grown_edges_lookup in Hc as [_ ?].
Qed.

Lemma data_model_resets_witness :
  vars ran_once !! "caffeine_smiles" = Some (VStr caffeine) ∧
  vars ran_once !! "mol" = Some (VMol caffeine_mol) ∧
  column "nodes_dict" "~id" ran_once ≠ Some [] ∧
  ∃ st' (tn te : table),
    runs_to (cell_data_model;; cell_projection) ran_once st' ∧
    dict_of "nodes_dict" st' = Some tn ∧
    dict_of "edges_dict" st' = Some te ∧
    dom tn = list_to_set (C := gset string) node_fields ∧
    dom te = list_to_set (C := gset string) edge_fields ∧
    (∀ k c, tn !! k = Some c → length c = length (GetAtoms caffeine_mol)) ∧
    (∀ k c, te !! k = Some c → length c = length (GetBonds caffeine_mol)).
Proof.
  assert (Hs : vars ran_once !! "caffeine_smiles" = Some (VStr caffeine))
    by (by vm_compute).
  assert (Hm : vars ran_once !! "mol" = Some (VMol caffeine_mol))
    by (by vm_compute).
  split; [exact Hs|]. split; [exact Hm|]. split; [by vm_compute|].
  exact (data_model_resets caffeine caffeine_mol ran_once Hs Hm).
Defined.

(** X7. A molecule with no atoms and no bonds: the projection cell needs
    nothing but [mol], and leaves the kernel exactly as it was, dictionaries
    and loop targets included. *)
Theorem projection_of_empty_molecule m st :
  vars st !! "mol" = Some (VMol m) →
  GetAtoms m = [] → GetBonds m = [] →
  runs_to cell_projection st st.
Proof.
  intros Hm Ha Hb. unfold cell_projection.
  eapply runs_to_seq.
  - eapply runs_to_read_mol; [exact Hm|]. rewrite Ha. reflexivity.
  - eapply runs_to_read_mol; [exact Hm|]. rewrite Hb. reflexivity.
Qed.

Lemma projection_of_empty_molecule_witness :
  runs_to cell_projection (mkState {["mol" := VMol empty_mol]} [])
    (mkState {["mol" := VMol empty_mol]} []).
Proof.
  apply (projection_of_empty_molecule empty_mol
           (mkState {["mol" := VMol empty_mol]} [])); reflexivity.
Defined.

(** X19. In one run no edge identifier is a node identifier: the [~id]
    lists of the two dictionaries have no cell in common. *)
Theorem node_and_edge_ids_disjoint s m st :
  projection_input s m st →
  ∃ st' ids eids,
    runs_to cell_projection st st' ∧
    column "nodes_dict" "~id" st' = Some ids ∧
    column "edges_dict" "~id" st' = Some eids ∧
    ∀ x, x ∈ ids → x ∉ eids.
Proof.
  intros Hin.
  destruct (projection_from_input s m st Hin)
    as (st' & Hrun & _ & Hn & He & _).
  exists st'. do 2 eexists. unfold column. rewrite Hn, He.
  cbn [mbind option_bind].
  split_and!; [exact Hrun | | |].
  - apply node_column with (f := λ a, SStr (node_id s (GetIdx a)));
      [by repeat constructor | done].
  - apply edge_column
      with (f := λ b, SStr (edge_id s (GetBeginAtomIdx b) (GetEndAtomIdx b)));
      [by repeat constructor | done].
  - intros x (a & -> & _)%list_elem_of_fmap (b & E & _)%list_elem_of_fmap.
    apply (edge_id_not_node_id s (GetBeginAtomIdx b) (GetEndAtomIdx b)
             s (GetIdx a)).
    congruence.
Qed.

Lemma node_and_edge_ids_disjoint_witness :
  projection_input caffeine caffeine_mol (prepared caffeine caffeine_mol) ∧
  ∃ st' ids eids,
    runs_to cell_projection (prepared caffeine caffeine_mol) st' ∧
    column "nodes_dict" "~id" st' = Some ids ∧
    column "edges_dict" "~id" st' = Some eids ∧
    ∀ x, x ∈ ids → x ∉ eids.
Proof.
  assert (H : projection_input caffeine caffeine_mol
                (prepared caffeine caffeine_mol)) by (by vm_compute).
  split; [exact H|].
  exact (node_and_edge_ids_disjoint caffeine caffeine_mol _ H).
Defined.

(** ** Failures *)

Lemma raises_bind {A B} (m : Py A) (f : A → Py B) st e :
  raises m st e → raises (m ≫= f) st e.
Proof. unfold raises, mbind, Py_bind. by intros ->. Qed.

Lemma raises_after {A B} (m : Py A) (f : A → Py B) st x st1 e :
  m st = inr (x, st1) → raises (f x) st1 e → raises (m ≫= f) st e.
Proof. unfold raises. intros Hm Hf. by rewrite (bind_inr _ _ _ _ _ Hm). Qed.

Lemma raises_seq (p q : Py unit) st st1 e :
  runs_to p st st1 → raises q st1 e → raises (p;; q) st e.
Proof. intros Hp Hq. by apply raises_after with tt st1. Qed.

Lemma name_unbound x st : vars st !! x = None → raises (name x) st (NameError x).
Proof. intros H. unfold raises, name. by rewrite H. Qed.

Lemma append_to_NameError d k e st :
  vars st !! d = None → raises (append_to d k e) st (NameError d).
Proof.
  intros Hd. unfold append_to. do 2 apply raises_bind. by apply name_unbound.
Qed.

Lemma append_to_KeyError d k e st (tbl : table) :
  vars st !! d = Some (VDict tbl) → tbl !! k = None →
  raises (append_to d k e) st (KeyError k).
Proof.
  intros Hd Hk. unfold append_to.
  eapply raises_after; [by apply read_dict|].
  apply raises_bind. unfold raises, subscript. by rewrite Hk.
Qed.

(** X8. A descriptor the parser rejects is not caught where it is parsed:
    when the parser rejects the descriptor bound to [caffeine_smiles], the
    parse cell terminates normally, binds [mol] to [None] and changes
    nothing else; it is the projection cell, run next, that fails, with
    [AttributeError]. *)
Theorem rejected_descriptor_fails_in_projection parse s st :
  vars st !! "caffeine_smiles" = Some (VStr s) →
  parse s = None →
  ∃ st1,
    runs_to (cell_parse parse) st st1 ∧
    vars st1 !! "mol" = Some VNone ∧
    requests st1 = requests st ∧
    (∀ y, y ≠ "mol" → vars st1 !! y = vars st !! y) ∧
    raises cell_projection st1 AttributeError.
Proof.
  intros Hs Hp. eexists. split_and!.
  - unfold runs_to, cell_parse.
    rewrite (bind_inr _ _ _ _ _ (read_str _ _ _ Hs)).
    rewrite Hp. reflexivity.
  - cbn [vars]. apply lookup_insert_eq.
  - reflexivity.
  - intros y Hy. cbn [vars]. by rewrite lookup_insert_ne.
  - unfold cell_projection. do 2 apply raises_bind.
    eapply raises_after; [apply name_inr; cbn [vars]; apply lookup_insert_eq|].
    reflexivity.
Qed.

Lemma rejected_descriptor_fails_in_projection_witness :
  vars (unparsed "C(") !! "caffeine_smiles" = Some (VStr "C(") ∧
  parse_caffeine "C(" = None ∧
  ∃ st1,
    runs_to (cell_parse parse_caffeine) (unparsed "C(") st1 ∧
    vars st1 !! "mol" = Some VNone ∧
    requests st1 = requests (unparsed "C(") ∧
    (∀ y, y ≠ "mol" → vars st1 !! y = vars (unparsed "C(") !! y) ∧
    raises cell_projection st1 AttributeError.
Proof.
  assert (Hs : vars (unparsed "C(") !! "caffeine_smiles" = Some (VStr "C("))
    by (by vm_compute).
  assert (Hp : parse_caffeine "C(" = None) by reflexivity.
  split; [exact Hs|]. split; [exact Hp|].
  exact (rejected_descriptor_fails_in_projection parse_caffeine "C("
           (unparsed "C(") Hs Hp).
Defined.

Lemma raises_atom_loop a atoms st e :
  raises atom_body
    {| vars := <["atom" := VAtom a]> (vars st); requests := requests st |} e →
  raises (atom_loop (a :: atoms)) st e.
Proof.
  intros H. unfold atom_loop. rewrite fmap_cons. cbn [for_in].
  eapply raises_seq; [reflexivity|]. by apply raises_bind.
Qed.

(** X9. Run on a molecule that has an atom before the data model cell has
    defined [nodes_dict], the projection cell raises [NameError] for
    [nodes_dict]. *)
Theorem projection_without_data_model m st :
  vars st !! "mol" = Some (VMol m) →
  GetAtoms m ≠ [] →
  vars st !! "nodes_dict" = None →
  raises cell_projection st (NameError "nodes_dict").
Proof.
  intros Hm Ha Hn. unfold cell_projection. apply raises_bind.
  eapply raises_after; [by apply read_mol|].
  destruct (GetAtoms m) as [|a atoms]; [done|].
  apply raises_atom_loop. unfold atom_body.
  apply raises_bind, append_to_NameError. cbn [vars].
  by rewrite lookup_insert_ne.
Qed.

Lemma projection_without_data_model_witness :
  raises cell_projection (mkState {["mol" := VMol ethanol_mol]} [])
    (NameError "nodes_dict").
Proof.
  apply (projection_without_data_model ethanol_mol
           (mkState {["mol" := VMol ethanol_mol]} []));
    [reflexivity | discriminate | reflexivity].
Defined.

(** X10. The projection cell reads the descriptor under the fixed name
    [caffeine_smiles]: with a molecule that has an atom and the data model
    in place, but the descriptor bound under another name only, it raises
    [NameError] for [caffeine_smiles]. *)
Theorem projection_needs_caffeine_smiles m st (tn : table) :
  vars st !! "mol" = Some (VMol m) →
  GetAtoms m ≠ [] →
  vars st !! "nodes_dict" = Some (VDict tn) →
  is_Some (tn !! "~id") →
  vars st !! "caffeine_smiles" = None →
  raises cell_projection st (NameError "caffeine_smiles").
Proof.
  intros Hm Ha Hn [c Hc] Hs. unfold cell_projection. apply raises_bind.
  eapply raises_after; [by apply read_mol|].
  destruct (GetAtoms m) as [|a atoms]; [done|].
  apply raises_atom_loop. unfold atom_body. apply raises_bind.
  unfold append_to.
  eapply raises_after.
  { apply read_dict. cbn [vars]. rewrite lookup_insert_ne by done. exact Hn. }
  eapply raises_after; [unfold subscript; rewrite Hc; reflexivity|].
  do 3 apply raises_bind. apply name_unbound. cbn [vars].
  by rewrite lookup_insert_ne.
Qed.

Lemma projection_needs_caffeine_smiles_witness :
  raises cell_projection
    (mkState (<["ethanol_smiles" := VStr "CCO"]>
                (delete "caffeine_smiles" (vars (prepared "CCO" ethanol_mol))))
       [])
    (NameError "caffeine_smiles").
Proof.
  apply (projection_needs_caffeine_smiles ethanol_mol _ nodes_dict_init);
    [by vm_compute | discriminate | by vm_compute | by eexists
    | by vm_compute].
Defined.

Ltac ok_step := eapply raises_seq; [step_append | simpl].

Ltac key_fail :=
  eapply append_to_KeyError; [simpl; by simplify_map_eq | by simplify_map_eq].

(** X11. A node dictionary that lacks one of the five fields: on a molecule
    that has an atom the projection cell raises [KeyError] for that field. *)
Theorem projection_missing_field s m st (tn : table) k :
  vars st !! "caffeine_smiles" = Some (VStr s) →
  vars st !! "mol" = Some (VMol m) →
  GetAtoms m ≠ [] →
  vars st !! "nodes_dict" = Some (VDict tn) →
  k ∈ node_fields →
  tn !! k = None →
  (∀ k', k' ∈ node_fields → k' ≠ k → is_Some (tn !! k')) →
  raises cell_projection st (KeyError k).
Proof.
  intros Hs Hm Ha Hn Hk Hnone Hf. unfold cell_projection. apply raises_bind.
  eapply raises_after; [by apply read_mol|].
  destruct (GetAtoms m) as [|a atoms]; [done|].
  apply raises_atom_loop. unfold atom_body.
  unfold node_fields in Hk. rewrite !elem_of_cons, elem_of_nil in Hk.
  destruct Hk as [->|[->|[->|[->|[->|[]]]]]].
  - apply raises_bind. key_fail.
  - destruct (Hf "~id") as [c1 E1]; [by repeat constructor | done |].
    ok_step. apply raises_bind. key_fail.
  - destruct (Hf "~id") as [c1 E1]; [by repeat constructor | done |].
    destruct (Hf "~label") as [c2 E2]; [by repeat constructor | done |].
    do 2 ok_step. apply raises_bind. key_fail.
  - destruct (Hf "~id") as [c1 E1]; [by repeat constructor | done |].
    destruct (Hf "~label") as [c2 E2]; [by repeat constructor | done |].
    destruct (Hf "idx") as [c3 E3]; [by repeat constructor | done |].
    do 3 ok_step. apply raises_bind. key_fail.
  - destruct (Hf "~id") as [c1 E1]; [by repeat constructor | done |].
    destruct (Hf "~label") as [c2 E2]; [by repeat constructor | done |].
    destruct (Hf "idx") as [c3 E3]; [by repeat constructor | done |].
    destruct (Hf "atomicNumber") as [c4 E4]; [by repeat constructor | done |].
    do 4 ok_step. key_fail.
Qed.

Lemma projection_missing_field_witness :
  raises cell_projection
    (prepared_with (delete "idx" nodes_dict_init) "CCO" ethanol_mol)
    (KeyError "idx").
Proof.
  apply (projection_missing_field "CCO" ethanol_mol
           (prepared_with (delete "idx" nodes_dict_init) "CCO" ethanol_mol)
           (delete "idx" nodes_dict_init) "idx").
  - by vm_compute.
  - by vm_compute.
  - discriminate.
  - by vm_compute.
  - by repeat constructor.
  - apply lookup_delete_eq.
  - intros k' Hk' Hne. rewrite lookup_delete_ne by done.
    by apply init_node_fields.
Defined.

(** X12. A field of the user's own in the node dictionary is never filled:
    starting from a rectangular [nodes_dict] that has the five fields and one
    more, the projection of a molecule that has an atom terminates normally
    but leaves the lists of unequal length, and the data-frame cell then
    raises [ValueError]. *)
Theorem extra_field_breaks_the_frame s m st (tn te : table) k c :
  vars st !! "caffeine_smiles" = Some (VStr s) →
  vars st !! "mol" = Some (VMol m) →
  GetAtoms m ≠ [] →
  vars st !! "nodes_dict" = Some (VDict tn) →
  vars st !! "edges_dict" = Some (VDict te) →
  (∀ k, k ∈ node_fields → is_Some (tn !! k)) →
  (∀ k, k ∈ edge_fields → is_Some (te !! k)) →
  rectangular tn →
  k ∉ node_fields → tn !! k = Some c →
  (∃ st', runs_to cell_projection st st') ∧
  raises (cell_projection;; cell_frames) st ValueError.
Proof.
  intros Hs Hm Ha Hn He Hfn Hfe Hrect Hk Hc.
  pose proof (projection_inr s m st tn te Hs Hm Hn He Hfn Hfe) as Hrun.
  split; [by eexists|].
  eapply raises_seq; [exact Hrun|].
  unfold cell_frames. apply raises_bind.
  eapply raises_after.
  { apply read_dict. cbn [vars].
    by rewrite lookup_insert_ne, lookup_rebind_ne, lookup_insert_eq. }
  apply raises_bind. unfold raises, from_dict.
  rewrite decide_False; [done|].
  intros Hbad.
  destruct (Hfn "~id") as [c0 Hc0]; [by repeat constructor|].
  assert (length c0 = length c) as Hlen by exact (Hrect _ _ Hc0 _ _ Hc).
  specialize (Hbad "~id" (c0 ++ (a ← GetAtoms m; atom_cells s a "~id"))).
  rewrite lookup_grow, Hc0 in Hbad. specialize (Hbad eq_refl k (c ++ [])).
  rewrite lookup_grow, Hc in Hbad. simpl in Hbad.
  rewrite (bind_nil_cells _ k) in Hbad by auto using atom_cells_other.
  specialize (Hbad eq_refl). rewrite !length_app, length_atom_cells in Hbad.
  rewrite decide_True in Hbad by (by repeat constructor). simpl in Hbad.
  destruct (GetAtoms m); [done|]. simpl in Hbad. lia.
Qed.

Lemma charge_rectangular : rectangular nodes_dict_charge.
Proof. apply (bool_decide_unpack _). by vm_compute. Qed.

Lemma extra_field_breaks_the_frame_witness :
  (∃ st', runs_to cell_projection
            (prepared_with nodes_dict_charge "CCO" ethanol_mol) st') ∧
  raises (cell_projection;; cell_frames)
    (prepared_with nodes_dict_charge "CCO" ethanol_mol) ValueError.
Proof.
  apply (extra_field_breaks_the_frame "CCO" ethanol_mol
           (prepared_with nodes_dict_charge "CCO" ethanol_mol)
           nodes_dict_charge edges_dict_init "charge" []).
  - by vm_compute.
  - by vm_compute.
  - discriminate.
  - by vm_compute.
  - by vm_compute.
  - exact charge_has_node_fields.
  - exact init_edge_fields.
  - exact charge_rectangular.
  - unfold node_fields. rewrite !not_elem_of_cons.
    split_and!; done || apply not_elem_of_nil.
  - by vm_compute.
Defined.

(** ** Data frames are snapshots *)

(** X13. The data frames copy the dictionaries: after the projection, the
    data-frame cell and a second run of the projection, the frames still
    hold N and M rows while every list of the dictionaries has doubled. *)
Theorem frames_are_snapshots s m st :
  projection_input s m st →
  ∃ st' (fn fe tn te : table),
    runs_to (cell_projection;; cell_frames;; cell_projection) st st' ∧
    frame_of "nodes_df" st' = Some fn ∧
    frame_of "edges_df" st' = Some fe ∧
    dict_of "nodes_dict" st' = Some tn ∧
    dict_of "edges_dict" st' = Some te ∧
    (∀ k c, fn !! k = Some c → length c = length (GetAtoms m)) ∧
    (∀ k c, fe !! k = Some c → length c = length (GetBonds m)) ∧
    (∀ k c, tn !! k = Some c → length c = 2 * length (GetAtoms m)) ∧
    (∀ k c, te !! k = Some c → length c = 2 * length (GetBonds m)).
Proof.
  intros Hin.
  destruct (projection_from_input s m st Hin)
    as (st1 & Hrun1 & _ & Hn & He & _ & _ & Hframe).
  pose proof (frames_inr st1 _ _ Hn He (rectangular_grown_nodes _ _)
                (rectangular_grown_edges _ _)) as Hfr.
  apply dict_of_Some in Hn, He.
  destruct Hin as (Hs & Hm & _).
  assert (Hout : ∀ y, y = "mol" ∨ y = "caffeine_smiles" →
            y ∉ ["nodes_dict"; "edges_dict"; "atom"; "bond"]).
  { intros y [-> | ->]; rewrite !not_elem_of_cons;
      split_and!; done || apply not_elem_of_nil. }
  eexists. do 4 eexists. split_and!.
  - eapply runs_to_seq; [exact Hrun1|].
    eapply runs_to_seq; [exact Hfr|].
    eapply projection_inr with (s := s) (m := m); cbn [vars].
    + rewrite !lookup_insert_ne, Hframe by auto. exact Hs.
    + rewrite !lookup_insert_ne, Hframe by auto. exact Hm.
    + rewrite !lookup_insert_ne by done. exact Hn.
    + rewrite !lookup_insert_ne by done. exact He.
    + intros k Hk. by apply grow_is_Some, init_node_fields.
    + intros k Hk. by apply grow_is_Some, init_edge_fields.
  - unfold frame_of. cbn [vars].
    rewrite lookup_insert_ne, lookup_rebind_ne, lookup_insert_ne,
      lookup_rebind_ne, lookup_insert_ne, lookup_insert_eq by done.
    reflexivity.
  - unfold frame_of. cbn [vars].
    rewrite lookup_insert_ne, lookup_rebind_ne, lookup_insert_ne,
      lookup_rebind_ne, lookup_insert_eq by done.
    reflexivity.
  - unfold dict_of. cbn [vars].
    by rewrite lookup_insert_ne, lookup_rebind_ne, lookup_insert_eq.
  - unfold dict_of. cbn [vars]. by rewrite lookup_insert_eq.
  - intros k c Hc. by apply grown_nodes_lookup in Hc as [_ ?].
  - intros k c Hc. by apply grown_edges_lookup in Hc as [_ ?].
  - intros k c. rewrite lookup_grow.
    destruct (grow _ nodes_dict_init !! k) as [c0|] eqn:E0; [|done].
    apply grown_nodes_lookup in E0 as [Hk E0].
    intros [= <-]. rewrite length_app, length_atom_cells, decide_True by done.
    lia.
  - intros k c. rewrite lookup_grow.
    destruct (grow _ edges_dict_init !! k) as [c0|] eqn:E0; [|done].
    apply grown_edges_lookup in E0 as [Hk E0].
    intros [= <-]. rewrite length_app, length_bond_cells, decide_True by done.
    lia.
Qed.

Lemma frames_are_snapshots_witness :
  projection_input caffeine caffeine_mol (prepared caffeine caffeine_mol) ∧
  ∃ st' (fn fe tn te : table),
    runs_to (cell_projection;; cell_frames;; cell_projection)
      (prepared caffeine caffeine_mol) st' ∧
    frame_of "nodes_df" st' = Some fn ∧
    frame_of "edges_df" st' = Some fe ∧
    dict_of "nodes_dict" st' = Some tn ∧
    dict_of "edges_dict" st' = Some te ∧
    (∀ k c, fn !! k = Some c → length c = length (GetAtoms caffeine_mol)) ∧
    (∀ k c, fe !! k = Some c → length c = length (GetBonds caffeine_mol)) ∧
    (∀ k c, tn !! k = Some c → length c = 2 * length (GetAtoms caffeine_mol)) ∧
    (∀ k c, te !! k = Some c → length c = 2 * length (GetBonds caffeine_mol)).
Proof.
  assert (H : projection_input caffeine caffeine_mol
                (prepared caffeine caffeine_mol)) by (by vm_compute).
  split; [exact H|].
  exact (frames_are_snapshots caffeine caffeine_mol _ H).
Defined.

(** ** The clean-up cell on any node frame *)

(** X14. On any node frame whose [~id] column holds strings, edited by
    hand or not, the clean-up cell sends one request per cell of the column,
    in order and repeated cells included, after what was sent before; the
    request for the cell [i] is the text [g.V().has('~id', 'i').drop();]
    with [i] put in as it is.  The cell rebinds its loop target [i] and
    changes no other name, so the dictionaries, the frames and the
    connection are as before. *)
Theorem cleanup_any_frame st (f : table) ids host port :
  vars st !! "nodes_df" = Some (VFrame f) →
  f !! "~id" = Some (SStr <$> ids) →
  vars st !! "client" = Some (VClient host port) →
  ∃ st',
    runs_to cell_cleanup st st' ∧
    requests st'
      = requests st
        ++ ((λ i, ("g.V().has('~id', '" +:+ i) +:+ "').drop();") <$> ids) ∧
    vars st' !! "i" = from_option (λ i, Some (VStr i)) (vars st !! "i") (last ids) ∧
    ∀ y, y ≠ "i" → vars st' !! y = vars st !! y.
Proof.
  intros Hf Hid Hc. eexists. split_and!.
  - by eapply cleanup_inr.
  - reflexivity.
  - cbn [vars]. rewrite lookup_rebind_eq, !fmap_last.
    by destruct (last ids).
  - intros y Hy. cbn [vars]. by rewrite lookup_rebind_ne.
Qed.

Lemma cleanup_any_frame_witness :
  ∃ st',
    runs_to cell_cleanup edited_frame_kernel st' ∧
    requests st'
      = requests edited_frame_kernel
        ++ ((λ i, ("g.V().has('~id', '" +:+ i) +:+ "').drop();")
              <$> ["a"; "b"; "a"]) ∧
    vars st' !! "i"
      = from_option (λ i, Some (VStr i)) (vars edited_frame_kernel !! "i")
          (last ["a"; "b"; "a"]) ∧
    ∀ y, y ≠ "i" → vars st' !! y = vars edited_frame_kernel !! y.
Proof.
  apply (cleanup_any_frame edited_frame_kernel
           (<["~id" := [SStr "a"; SStr "b"; SStr "a"]]> ∅)
           ["a"; "b"; "a"] "localhost" 8182%N);
    by vm_compute.
Defined.

(** X15. Run before the connection cell on a node frame that has a row,
    the clean-up cell raises [NameError] for [client]. *)
Theorem cleanup_without_client st (f : table) c ids :
  vars st !! "nodes_df" = Some (VFrame f) →
  f !! "~id" = Some (c :: ids) →
  vars st !! "client" = None →
  raises cell_cleanup st (NameError "client").
Proof.
  intros Hf Hid Hc. unfold cell_cleanup.
  eapply raises_after.
  { erewrite bind_inr; cycle 1.
    { rewrite (bind_inr _ _ _ _ _ (name_inr _ _ _ Hf)). reflexivity. }
    unfold subscript. rewrite Hid. reflexivity. }
  rewrite fmap_cons. cbn [for_in].
  eapply raises_seq; [reflexivity|].
  do 2 apply raises_bind. apply name_unbound. cbn [vars].
  by rewrite lookup_insert_ne.
Qed.

Lemma cleanup_without_client_witness :
  raises cell_cleanup
    (mkState (delete "client" (vars edited_frame_kernel)) [])
    (NameError "client").
Proof.
  apply (cleanup_without_client
           (mkState (delete "client" (vars edited_frame_kernel)) [])
           (<["~id" := [SStr "a"; SStr "b"; SStr "a"]]> ∅)
           (SStr "a") [SStr "b"; SStr "a"]);
    by vm_compute.
Defined.

(** X16. The clean-up cell has no memory of what it has sent: run twice on
    the same node frame it sends every request twice. *)
Theorem cleanup_twice_sends_twice st (f : table) ids host port :
  vars st !! "nodes_df" = Some (VFrame f) →
  f !! "~id" = Some (SStr <$> ids) →
  vars st !! "client" = Some (VClient host port) →
  ∃ st',
    runs_to (cell_cleanup;; cell_cleanup) st st' ∧
    requests st'
      = requests st ++ (drop_query <$> ids) ++ (drop_query <$> ids).
Proof.
  intros Hf Hid Hc. eexists. split.
  - eapply runs_to_seq; [by eapply cleanup_inr|].
    eapply cleanup_inr with (f := f) (ids := ids) (host := host);
      cbn [vars]; [| exact Hid |]; by rewrite lookup_rebind_ne.
  - cbn [requests]. by rewrite <- app_assoc.
Qed.

Lemma cleanup_twice_sends_twice_witness :
  ∃ st',
    runs_to (cell_cleanup;; cell_cleanup) edited_frame_kernel st' ∧
    requests st'
      = requests edited_frame_kernel ++ (drop_query <$> ["a"; "b"; "a"])
          ++ (drop_query <$> ["a"; "b"; "a"]).
Proof.
  apply (cleanup_twice_sends_twice edited_frame_kernel
           (<["~id" := [SStr "a"; SStr "b"; SStr "a"]]> ∅)
           ["a"; "b"; "a"] "localhost" 8182%N);
    by vm_compute.
Defined.

(** X17. On a node frame with no rows the clean-up cell sends nothing and
    leaves the kernel exactly as it was; it does not even need a
    connection. *)
Theorem cleanup_of_empty_frame st (f : table) :
  vars st !! "nodes_df" = Some (VFrame f) →
  f !! "~id" = Some [] →
  runs_to cell_cleanup st st.
Proof.
  intros Hf Hid. unfold runs_to, cell_cleanup.
  erewrite bind_inr; cycle 1.
  { erewrite bind_inr; cycle 1.
    { rewrite (bind_inr _ _ _ _ _ (name_inr _ _ _ Hf)). reflexivity. }
    unfold subscript. rewrite Hid. reflexivity. }
  reflexivity.
Qed.

Lemma cleanup_of_empty_frame_witness :
  runs_to cell_cleanup
    (mkState {["nodes_df" := VFrame nodes_dict_init]} [])
    (mkState {["nodes_df" := VFrame nodes_dict_init]} []).
Proof.
  apply (cleanup_of_empty_frame
           (mkState {["nodes_df" := VFrame nodes_dict_init]} [])
           nodes_dict_init); by vm_compute.
Defined.

(** The projection, the data-frame cell and the connection cell, and the
    node identifiers the clean-up cell then works through. *)
Lemma cleanup_after_projection s m host st :
  projection_input s m st →
  ∃ st1 st2,
    runs_to (cell_projection;; cell_frames;; cell_connect host) st st1 ∧
    requests st1 = requests st ∧
    runs_to cell_cleanup st1 st2 ∧
    requests st2
      = requests st1
        ++ (drop_query <$> ((λ a, node_id s (GetIdx a)) <$> GetAtoms m)).
Proof.
  intros Hin.
  destruct (projection_from_input s m st Hin)
    as (st0 & Hrun & Hreq & Hn & He & _).
  pose proof (frames_inr st0 _ _ Hn He (rectangular_grown_nodes _ _)
                (rectangular_grown_edges _ _)) as Hfr.
  do 2 eexists. split_and!.
  - eapply runs_to_seq; [exact Hrun|].
    eapply runs_to_seq; [exact Hfr|]. reflexivity.
  - exact Hreq.
  - eapply cleanup_inr
      with (host := host)
           (ids := (λ a, node_id s (GetIdx a)) <$> GetAtoms m); cbn [vars].
    + by rewrite lookup_insert_ne, lookup_insert_ne, lookup_insert_eq.
    + rewrite <- list_fmap_compose.
      apply node_column; [by repeat constructor | done].
    + by rewrite lookup_insert_eq.
  - done.
Qed.

(** X18. When the atom indices are pairwise distinct, the requests the
    clean-up cell sends after the projection are pairwise distinct: no
    vertex is asked to be dropped twice. *)
Theorem cleanup_requests_distinct s m host st :
  projection_input s m st →
  NoDup (GetIdx <$> GetAtoms m) →
  ∃ st1 st2 sent,
    runs_to (cell_projection;; cell_frames;; cell_connect host) st st1 ∧
    runs_to cell_cleanup st1 st2 ∧
    requests st2 = requests st1 ++ sent ∧
    length sent = length (GetAtoms m) ∧
    NoDup sent.
Proof.
  intros Hin Hnd.
  destruct (cleanup_after_projection s m host st Hin)
    as (st1 & st2 & Hrun1 & _ & Hrun2 & Hreq).
  exists st1, st2. eexists. split_and!; [exact Hrun1 | exact Hrun2 | exact Hreq | |].
  - by rewrite !length_fmap.
  - assert (Inj (=) (=) drop_query) as Hinj1 by exact drop_query_inj.
    assert (Inj (=) (=) (node_id s)) as Hinj2 by exact (node_id_inj s).
    apply (NoDup_fmap_2 drop_query).
    rewrite (list_fmap_compose GetIdx (node_id s)).
    by apply (NoDup_fmap_2 (node_id s)).
Qed.

Lemma cleanup_requests_distinct_witness :
  projection_input caffeine caffeine_mol (prepared caffeine caffeine_mol) ∧
  NoDup (GetIdx <$> GetAtoms caffeine_mol) ∧
  ∃ st1 st2 sent,
    runs_to (cell_projection;; cell_frames;; cell_connect "localhost")
      (prepared caffeine caffeine_mol) st1 ∧
    runs_to cell_cleanup st1 st2 ∧
    requests st2 = requests st1 ++ sent ∧
    length sent = length (GetAtoms caffeine_mol) ∧
    NoDup sent.
Proof.
  assert (H : projection_input caffeine caffeine_mol
                (prepared caffeine caffeine_mol)) by (by vm_compute).
  assert (D : NoDup (GetIdx <$> GetAtoms caffeine_mol)).
  { apply (bool_decide_unpack _). by vm_compute. }
  split; [exact H|]. split; [exact D|].
  exact (cleanup_requests_distinct caffeine caffeine_mol "localhost" _ H D).
Defined.

(** ** Colliding edge identifiers *)

Lemma str_two_parts a b : 1 ≤ a → b < 10 → str (10 * a + b) = str a +:+ str b.
Proof.
  intros Ha Hb. rewrite str_decimal by lia.
  rewrite <- (Nat.div_unique (10 * a + b) 10 a b) by lia.
  by rewrite <- (Nat.mod_unique (10 * a + b) 10 a b) by lia.
Qed.

(** The endpoint pairs [(10a+b, c)] and [(a, 10b+c)] are written with the
    same digits. *)
Lemma edge_id_shifted_digit s a b c :
  1 ≤ a → 1 ≤ b < 10 → c < 10 →
  edge_id s (10 * a + b) c = edge_id s a (10 * b + c).
Proof.
  intros Ha Hb Hc. unfold edge_id.
  rewrite (str_two_parts a b), (str_two_parts b c) by lia.
  by rewrite !append_assoc.
Qed.

(** X20. Because nothing separates the two indices, a bond from atom
    [10a+b] to atom [c] and a bond from atom [a] to atom [10b+c] (with
    [a], [b] at least one and [b], [c] single digits) get the same edge
    identifier: the [~id] list of [edges_dict] then holds one identifier in
    two rows. *)
Theorem shifted_digit_bonds_collide s m st i j b1 b2 a b c :
  projection_input s m st →
  GetBonds m !! i = Some b1 →
  GetBonds m !! j = Some b2 →
  i ≠ j →
  endpoints b1 = (10 * a + b, c) →
  endpoints b2 = (a, 10 * b + c) →
  1 ≤ a → 1 ≤ b < 10 → c < 10 →
  ∃ st' ids x,
    runs_to cell_projection st st' ∧
    column "edges_dict" "~id" st' = Some ids ∧
    ids !! i = Some x ∧ ids !! j = Some x ∧
    ¬ NoDup ids.
Proof.
  intros Hin Hi Hj Hij [= E1 E1'] [= E2 E2'] Ha Hb Hc.
  destruct (projection_from_input s m st Hin)
    as (st' & Hrun & _ & _ & He & _).
  set (ids := (λ b, SStr (edge_id s (GetBeginAtomIdx b) (GetEndAtomIdx b)))
                <$> GetBonds m).
  assert (Hxi : ids !! i = Some (SStr (edge_id s (10 * a + b) c))).
  { unfold ids. rewrite list_lookup_fmap, Hi.
    cbn [fmap option_fmap option_map]. by rewrite E1, E1'. }
  assert (Hxj : ids !! j = Some (SStr (edge_id s (10 * a + b) c))).
  { unfold ids. rewrite list_lookup_fmap, Hj.
    cbn [fmap option_fmap option_map].
    rewrite E2, E2'. by rewrite (edge_id_shifted_digit s a b c). }
  exists st', ids, (SStr (edge_id s (10 * a + b) c)).
  unfold column. rewrite He. cbn [mbind option_bind].
  split_and!; [exact Hrun | | exact Hxi | exact Hxj |].
  - apply edge_column; [by repeat constructor | done].
  - intros Hnd. apply Hij.
    exact (proj1 (NoDup_alt _) Hnd i j _ Hxi Hxj).
Qed.

Lemma shifted_digit_bonds_collide_witness :
  ∃ st' ids x,
    runs_to cell_projection (prepared cyclodecyl cyclodecyl_mol) st' ∧
    column "edges_dict" "~id" st' = Some ids ∧
    ids !! 12 = Some x ∧ ids !! 11 = Some x ∧
    ¬ NoDup ids.
Proof.
  assert (H : projection_input cyclodecyl cyclodecyl_mol
                (prepared cyclodecyl cyclodecyl_mol)) by (by vm_compute).
  apply (shifted_digit_bonds_collide cyclodecyl cyclodecyl_mol
           (prepared cyclodecyl cyclodecyl_mol) 12 11
           (mkBond 11 2 SINGLE) (mkBond 1 12 SINGLE) 1 1 2 H);
    [reflexivity | reflexivity | discriminate | reflexivity | reflexivity
    | lia | lia | lia].
Defined.
